(** * A customer CRUD service over an in-memory map: model and properties

    The Go program [main.go] keeps a package-level [map[uint64]Customer]
    and serves it through five [net/http] handlers registered on a
    gorilla/mux router.  This development embeds the handlers as state
    transformers over the map and an [http.ResponseWriter], and proves the
    contract of each endpoint together with the invariants of the map.

    Conventions of the embedding:
    - [uint64] is [N]; no handler does arithmetic on an id, and the only
      place where the width matters, [strconv.ParseUint], has its
      overflow checks written out;
    - a Go [string] is a [string] of bytes;
    - what a handler writes with [json.NewEncoder(w).Encode] is kept as
      a JSON value, not as its text: the struct tags of [Customer] decide
      the shape of that value;
    - the order in which [range] visits a map is not fixed by Go; it is
      an explicit argument ([MapRange]) of everything that enumerates. *)

From stdpp Require Import gmap strings list fin_maps.
From Stdlib Require Import NArith Ascii String.

Set Warnings "-register-all".

Local Open Scope string_scope.
Local Open Scope N_scope.

(** ** Data model *)

Abbreviation uint64 := N (only parsing).

(** [type Customer struct], field for field. *)
Record Customer : Type := mkCustomer {
  Id          : uint64;
  Name        : string;
  Role        : string;
  Email       : string;
  Phone       : string;
  IsContacted : bool;
}.

#[global] Instance Customer_eq_dec : EqDecision Customer.
Proof. solve_decision. Defined.

(** [Customer{}], the zero value. *)
Definition Customer_zero : Customer := mkCustomer 0 "" "" "" "" false.

(** The type of the package-level variable [customers]. *)
Abbreviation Store := (gmap N Customer) (only parsing).

(** [var customers = map[uint64]Customer{...}]: the seed, entry by
    entry. *)
Definition johnDoe : Customer :=
  mkCustomer 1 "John Doe" "Admin" "john.doe@gmail.com" "1234567890" false.
Definition janeDoe : Customer :=
  mkCustomer 2 "Jane Doe" "User" "jane.doe@gmail.com" "0987654321" false.
Definition johnSmith : Customer :=
  mkCustomer 3 "John Smith" "User" "john.smith@gmail.com" "1234567890" false.

Definition customers_init : gmap N Customer :=
  <[1 := johnDoe]> (<[2 := janeDoe]> (<[3 := johnSmith]> ∅)).

(** ** JSON values and the encoding of a [Customer] *)

Inductive JSON : Type :=
  | JNull
  | JBool (b : bool)
  | JNumber (n : N)
  | JString (s : string)
  | JArray (l : list JSON)
  | JObject (o : list (string * JSON)).

(** The value of a key of an object, [None] when the key is not there
    (or when the value is not an object). *)
Fixpoint assoc (k : string) (o : list (string * JSON)) : option JSON :=
  match o with
  | [] => None
  | (k', v) :: o' => if String.eqb k k' then Some v else assoc k o'
  end.

Definition member (k : string) (j : JSON) : option JSON :=
  match j with
  | JObject o => assoc k o
  | _ => None
  end.

(** The Go values a [Customer] field can hold. *)
Inductive FieldValue : Type :=
  | VUint (n : uint64)
  | VString (s : string)
  | VBool (b : bool).

(** [encoding/json]'s [isEmptyValue] on these kinds: [0], [""], [false]. *)
Definition isEmptyValue (v : FieldValue) : bool :=
  match v with
  | VUint n => n =? 0
  | VString s => (String.length s =? 0)%nat
  | VBool b => negb b
  end.

Definition FieldValue_json (v : FieldValue) : JSON :=
  match v with
  | VUint n => JNumber n
  | VString s => JString s
  | VBool b => JBool b
  end.

(** One struct field with its tag [json:"name,omitempty"]. *)
Record Field : Type := mkField {
  jsonName  : string;
  omitEmpty : bool;
  fieldVal  : FieldValue;
}.

(** The six tagged fields of [Customer], in declaration order. *)
Definition Customer_fields (c : Customer) : list Field :=
  [ mkField "id"        true (VUint   (Id c));
    mkField "name"      true (VString (Name c));
    mkField "role"      true (VString (Role c));
    mkField "email"     true (VString (Email c));
    mkField "phone"     true (VString (Phone c));
    mkField "contacted" true (VBool   (IsContacted c)) ].

(** The struct encoder: a field is skipped when it is tagged
    [omitempty] and holds its empty value. *)
Definition encodeField (f : Field) : option (string * JSON) :=
  if omitEmpty f && isEmptyValue (fieldVal f) then None
  else Some (jsonName f, FieldValue_json (fieldVal f)).

Definition encodeStruct (fs : list Field) : JSON :=
  JObject (omap encodeField fs).

(** What [Encode] accepts in this program: a [string], a [Customer] and a
    [[]Customer]. *)
Class Marshal (A : Type) : Type := marshal : A → JSON.

#[global] Instance Marshal_string : Marshal string := JString.
#[global] Instance Marshal_Customer : Marshal Customer :=
  λ c, encodeStruct (Customer_fields c).
#[global] Instance Marshal_slice {A} `{Marshal A} : Marshal (list A) :=
  λ l, JArray (marshal <$> l).

(** ** Errors *)

Inductive strconvErr : Type := ErrSyntax | ErrRange.

(** [strconv.NumError]. *)
Record NumError : Type := mkNumError {
  Func : string;
  Num  : string;
  Err  : strconvErr;
}.

(** A Go [error] as this program meets it: a [*strconv.NumError], or an
    error of [io] or [encoding/json] of which only the message is used. *)
Inductive error : Type :=
  | ENum (e : NumError)
  | EOther (msg : string).

Definition strconvErr_Error (e : strconvErr) : string :=
  match e with
  | ErrSyntax => "invalid syntax"
  | ErrRange => "value out of range"
  end.

(** ** [strconv.ParseUint(s, 10, 64)] *)

Definition maxUint64 : N := 2 ^ 64 - 1.

(** [cutoff] is the smallest number such that [cutoff * 10 > maxUint64]. *)
Definition cutoff : N := maxUint64 / 10 + 1.

Definition syntaxError (fn str : string) : error := ENum (mkNumError fn str ErrSyntax).
Definition rangeError (fn str : string) : error := ENum (mkNumError fn str ErrRange).

(** [lower(c)]: [c | ('x' - 'X')]. *)
Definition lower (c : N) : N := N.lor c 32.

(** The digit value of one byte, [None] where the Go switch reaches its
    [default] branch (the byte ['_'] is only accepted in base 0). *)
Definition digitVal (c : N) : option N :=
  if (48 <=? c) && (c <=? 57) then Some (c - 48)
  else if (97 <=? lower c) && (lower c <=? 122) then Some (lower c - 97 + 10)
  else None.

Fixpoint ParseUint_loop (s0 : string) (s : string) (n : N) : N * option error :=
  match s with
  | EmptyString => (n, None)
  | String c s' =>
      match digitVal (N_of_ascii c) with
      | None => (0, Some (syntaxError "ParseUint" s0))
      | Some d =>
          if 10 <=? d then (0, Some (syntaxError "ParseUint" s0))
          else if cutoff <=? n then (maxUint64, Some (rangeError "ParseUint" s0))
          else
            let n := n * 10 in
            let n1 := (n + d) mod 2 ^ 64 in
            if (n1 <? n) || (maxUint64 <? n1)
            then (maxUint64, Some (rangeError "ParseUint" s0))
            else ParseUint_loop s0 s' n1
      end
  end.

Definition ParseUint (s : string) : N * option error :=
  match s with
  | EmptyString => (0, Some (syntaxError "ParseUint" s))
  | _ => ParseUint_loop s s 0
  end.

(** ** The HTTP side: requests, the response writer, status codes *)

Definition StatusOK : N := 200.
Definition StatusCreated : N := 201.
Definition StatusBadRequest : N := 400.
Definition StatusNotFound : N := 404.
Definition StatusConflict : N := 409.

(** What a handler reads of an [*http.Request]: the path variables that
    the router extracted ([mux.Vars(r)]) and what [io.ReadAll(r.Body)]
    yields, the bytes read and the error, if any. *)
Record Request : Type := mkRequest {
  Vars    : gmap string string;
  ReadAll : string * option error;
}.

(** An [http.ResponseWriter] as a recorder: the header map, the status
    code once the header has been written, and the JSON values encoded
    into the body so far. *)
Record ResponseWriter : Type := mkResponseWriter {
  Header : gmap string string;
  Code   : option N;
  Body   : list JSON;
}.

Definition NewRecorder : ResponseWriter := mkResponseWriter ∅ None [].

(** Handlers act on the package-level map and on the writer they are
    given. *)
Record World : Type := mkWorld {
  customers : gmap N Customer;
  writer    : ResponseWriter;
}.

Definition Handler (A : Type) : Type := World → A * World.

#[global] Instance Handler_ret : MRet Handler := λ A a σ, (a, σ).
#[global] Instance Handler_bind : MBind Handler :=
  λ A B f m σ, let '(a, σ') := m σ in f a σ'.

Definition getWorld : Handler World := λ σ, (σ, σ).
Definition putCustomers (m : gmap N Customer) : Handler unit :=
  λ σ, (tt, mkWorld m (writer σ)).
Definition modifyWriter (f : ResponseWriter → ResponseWriter) : Handler unit :=
  λ σ, (tt, mkWorld (customers σ) (f (writer σ))).

(** [w.Header().Set(k, v)]: no effect on the response once the header
    has been written. *)
Definition Header_Set (k v : string) : Handler unit :=
  modifyWriter (λ w,
    match Code w with
    | None => mkResponseWriter (<[k := v]> (Header w)) (Code w) (Body w)
    | Some _ => w
    end).

(** [w.WriteHeader(code)]: only the first call counts. *)
Definition WriteHeader (code : N) : Handler unit :=
  modifyWriter (λ w,
    match Code w with
    | None => mkResponseWriter (Header w) (Some code) (Body w)
    | Some _ => w
    end).

(** [json.NewEncoder(w).Encode(v)]: one JSON value appended to the body;
    a write before [WriteHeader] sends status 200. *)
Definition Encode {A} `{Marshal A} (v : A) : Handler unit :=
  modifyWriter (λ w,
    mkResponseWriter (Header w)
      (match Code w with None => Some StatusOK | c => c end)
      (Body w ++ [marshal v])%list).

(** ** Iterating over the map *)

(** One way [range customers] may visit the entries: any order, every
    entry once. *)
Record MapRange : Type := mkMapRange {
  range :> gmap N Customer → list (N * Customer);
  range_perm : ∀ m, range m ≡ₚ map_to_list m;
}.

(** The order of the map's own enumeration, one admissible choice. *)
Definition range_default : MapRange :=
  mkMapRange map_to_list (λ m, reflexivity (map_to_list m)).

(** ** The handlers of [main.go] *)

Section Handlers.

(** Two library functions are taken as they come:
    [json.Unmarshal(data, &v)], giving the value left in [v] and the
    error, and [strconv.Quote], used by [NumError.Error]. *)
Variable json_Unmarshal : string → Customer → Customer * option error.
Variable strconv_Quote : string → string.

(** [err.Error()]. *)
Definition Error (e : error) : string :=
  match e with
  | ENum e =>
      "strconv." +:+ Func e +:+ ": parsing " +:+ strconv_Quote (Num e)
        +:+ ": " +:+ strconvErr_Error (Err e)
  | EOther msg => msg
  end.

Definition readCustomerFromRequestBody (r : Request) : Customer * option error :=
  let '(body, err) := ReadAll r in
  match err with
  | Some err => (Customer_zero, Some err)
  | None =>
      let customer := Customer_zero in
      let '(customer, err) := json_Unmarshal body customer in
      match err with
      | Some err => (Customer_zero, Some err)
      | None => (customer, None)
      end
  end.

Variable ρ : MapRange.

(** [for _, value := range customers { result = append(result, value) }] *)
Definition getCustomerSlices : Handler (list Customer) :=
  σ ← getWorld;
  mret (foldl (λ result kv, (result ++ [kv.2])%list) [] (ρ (customers σ))).

Definition getCustomers (r : Request) : Handler unit :=
  Header_Set "Content-Type" "application/json";;
  WriteHeader StatusOK;;
  l ← getCustomerSlices;
  Encode l.

Definition getCustomer (r : Request) : Handler unit :=
  Header_Set "Content-Type" "application/json";;
  let urlPathVars := Vars r in
  match urlPathVars !! "id" with
  | Some givenId =>
      let '(id, err) := ParseUint givenId in
      match err with
      | Some err =>
          WriteHeader StatusBadRequest;;
          Encode ("Failed to parse the given id: " +:+ givenId +:+ ". " +:+ Error err)
      | None =>
          σ ← getWorld;
          match customers σ !! id with
          | Some customer =>
              WriteHeader StatusOK;;
              Encode customer
          | None =>
              WriteHeader StatusNotFound;;
              Encode ("Customer with id: " +:+ givenId +:+ " not found.")
          end
      end
  | None => WriteHeader StatusBadRequest
  end.

Definition addCustomer (r : Request) : Handler unit :=
  Header_Set "Content-Type" "application/json";;
  let '(customer, err) := readCustomerFromRequestBody r in
  match err with
  | Some err =>
      WriteHeader StatusBadRequest;;
      Encode ("Failed to read customer data from the request body. " +:+ Error err)
  | None =>
      if Id customer =? 0 then
        WriteHeader StatusBadRequest;;
        Encode "Invalid customer id 0. Customer id should be greater than 0."
      else
        σ ← getWorld;
        match customers σ !! Id customer with
        | Some _ => WriteHeader StatusConflict
        | None =>
            putCustomers (<[Id customer := customer]> (customers σ));;
            WriteHeader StatusCreated
        end;;
        l ← getCustomerSlices;
        Encode l
  end.

Definition updateCustomer (r : Request) : Handler unit :=
  Header_Set "Content-Type" "application/json";;
  let urlPathVars := Vars r in
  match urlPathVars !! "id" with
  | Some givenId =>
      let '(id, err) := ParseUint givenId in
      match err with
      | Some err =>
          WriteHeader StatusBadRequest;;
          Encode ("Failed to parse the given id: " +:+ givenId +:+ ". " +:+ Error err)
      | None =>
          let '(customer, err) := readCustomerFromRequestBody r in
          match err with
          | Some err =>
              WriteHeader StatusBadRequest;;
              Encode ("Failed to read customer data from the request body. "
                        +:+ Error err)
          | None =>
              if negb (Id customer =? id) then
                WriteHeader StatusBadRequest;;
                Encode "Customer id in the request body does not match the id in the URL path."
              else
                σ ← getWorld;
                match customers σ !! id with
                | Some _ =>
                    putCustomers (<[id := customer]> (customers σ));;
                    WriteHeader StatusOK;;
                    l ← getCustomerSlices;
                    Encode l
                | None =>
                    WriteHeader StatusNotFound;;
                    Encode ("Customer with id: " +:+ givenId +:+ " not found.")
                end
          end
      end
  | None => WriteHeader StatusBadRequest
  end.

Definition deleteCustomer (r : Request) : Handler unit :=
  Header_Set "Content-Type" "application/json";;
  let urlPathVars := Vars r in
  match urlPathVars !! "id" with
  | Some givenId =>
      let '(id, err) := ParseUint givenId in
      match err with
      | Some err =>
          WriteHeader StatusBadRequest;;
          Encode ("Failed to parse the given id: " +:+ givenId +:+ ". " +:+ Error err)
      | None =>
          σ ← getWorld;
          match customers σ !! id with
          | Some _ =>
              putCustomers (delete id (customers σ));;
              WriteHeader StatusOK;;
              l ← getCustomerSlices;
              Encode l
          | None =>
              WriteHeader StatusNotFound;;
              Encode ("Customer with id: " +:+ givenId +:+ " not found.")
          end
      end
  | None => WriteHeader StatusBadRequest
  end.

(** The routes that [main] registers on the customers. *)
Inductive Route : Type :=
  | GET_customer      (* GET /customers/{id} *)
  | GET_customers     (* GET /customers *)
  | POST_customers    (* POST /customers *)
  | PUT_customer      (* PUT /customers/{id} *)
  | DELETE_customer.  (* DELETE /customers/{id} *)

Definition handlerOf (rt : Route) : Request → Handler unit :=
  match rt with
  | GET_customer => getCustomer
  | GET_customers => getCustomers
  | POST_customers => addCustomer
  | PUT_customer => updateCustomer
  | DELETE_customer => deleteCustomer
  end.

(** One request served: the handler runs on the current map with a
    fresh writer; the map it leaves and the recorded response. *)
Definition ServeHTTP (h : Request → Handler unit) (r : Request)
    (m : gmap N Customer) : gmap N Customer * ResponseWriter :=
  let σ := (h r (mkWorld m NewRecorder)).2 in
  (customers σ, writer σ).

End Handlers.

(** The maps the program can be in: the seed, and whatever a served
    request leaves, with any decoder result and any iteration order. *)
Inductive reachable (json_Unmarshal : string → Customer → Customer * option error)
    (strconv_Quote : string → string) : gmap N Customer → Prop :=
  | reachable_init : reachable json_Unmarshal strconv_Quote customers_init
  | reachable_serve (ρ : MapRange) (rt : Route) (r : Request) (m : gmap N Customer) :
      reachable json_Unmarshal strconv_Quote m →
      reachable json_Unmarshal strconv_Quote
        (ServeHTTP (handlerOf json_Unmarshal strconv_Quote ρ rt) r m).1.

(** ** Vocabulary of the statements *)

(** [l] lists the records of [m]: each entry once, in some order. *)
Definition lists (m : gmap N Customer) (l : list Customer) : Prop :=
  l ≡ₚ (map_to_list m).*2.

(** The response recorded in [w] is JSON with status [code] and the one
    value [body]. *)
Definition responded (w : ResponseWriter) (code : N) (body : JSON) : Prop :=
  Header w !! "Content-Type" = Some "application/json"
  ∧ Code w = Some code
  ∧ Body w = [body].

(** The request body was read and decoded into [c]. *)
Definition decodes (json_Unmarshal : string → Customer → Customer * option error)
    (r : Request) (c : Customer) : Prop :=
  ∃ body, ReadAll r = (body, None) ∧ json_Unmarshal body Customer_zero = (c, None).

(** The router extracted the text [givenId] for [{id}] and it parses
    as [id]. *)
Definition pathId (r : Request) (givenId : string) (id : N) : Prop :=
  Vars r !! "id" = Some givenId ∧ ParseUint givenId = (id, None).

(** Every record is stored under its own [Id]. *)
Definition keyed (m : gmap N Customer) : Prop :=
  ∀ k c, m !! k = Some c → Id c = k.

(** What serving one request can do to the map. *)
Inductive change (m : gmap N Customer) : gmap N Customer → Prop :=
  | change_none : change m m
  | change_insert c :
      Id c ≠ 0 → m !! Id c = None → change m (<[Id c := c]> m)
  | change_replace c old :
      m !! Id c = Some old → change m (<[Id c := c]> m)
  | change_delete id old :
      m !! id = Some old → change m (delete id m).

(** In the object [j], the key [k] is left out exactly when [zero]
    holds, and carries [v] otherwise. *)
Definition keyHolds (j : JSON) (k : string) (zero : Prop) (v : JSON) : Prop :=
  (member k j = None ↔ zero) ∧ (¬ zero → member k j = Some v).

(** [j] is the sparse encoding of [c]: each of the six keys is left out
    exactly when its field holds the zero value of its type. *)
Definition sparse (c : Customer) (j : JSON) : Prop :=
  keyHolds j "id" (Id c = 0) (JNumber (Id c))
  ∧ keyHolds j "name" (Name c = "") (JString (Name c))
  ∧ keyHolds j "role" (Role c = "") (JString (Role c))
  ∧ keyHolds j "email" (Email c = "") (JString (Email c))
  ∧ keyHolds j "phone" (Phone c = "") (JString (Phone c))
  ∧ keyHolds j "contacted" (IsContacted c = false) (JBool (IsContacted c)).

(** The JSON values the handlers write: an encoded message, record or
    slice of records. *)
Inductive encoded : JSON → Prop :=
  | encoded_string (s : string) : encoded (marshal s)
  | encoded_Customer (c : Customer) : encoded (marshal c)
  | encoded_slice (l : list Customer) : encoded (marshal l).

(** Stand-ins for the two library functions, for running the handlers on
    concrete requests: a decoder that yields a given record whatever the
    bytes, and a [Quote] that adds the quotes and escapes nothing. *)
Definition Unmarshal_const (c : Customer) : string → Customer → Customer * option error :=
  λ _ _, (c, None).
Definition dquote : ascii := ascii_of_nat 34.
Definition Quote_plain (s : string) : string :=
  String dquote s +:+ String dquote EmptyString.

Definition requestWith (vars : list (string * string)) : Request :=
  mkRequest (list_to_map vars) ("{}", None).

(** Sample records for running the handlers. *)
Definition customerX : Customer := mkCustomer 4 "X" "User" "x@y.com" "111" false.
Definition newName3 : Customer := mkCustomer 3 "New Name" "User" "n@y.com" "222" true.
Definition anonymous : Customer := mkCustomer 0 "Nobody" "" "" "" false.

(** ** Vocabulary of the further properties *)

(** The response every branch of every handler builds: the JSON content
    type, one status, the values written. *)
Definition jsonResponse (code : N) (body : list JSON) : ResponseWriter :=
  mkResponseWriter (<["Content-Type" := "application/json"]> ∅) (Some code) body.

(** The eight ways a served request can end: the map it leaves and the
    response, from the map [m] it found. *)
Inductive outcome (m : gmap N Customer) : gmap N Customer → ResponseWriter → Prop :=
  | outcome_message code msg :
      code = StatusBadRequest ∨ code = StatusNotFound →
      outcome m m (jsonResponse code [JString msg])
  | outcome_bare :
      outcome m m (jsonResponse StatusBadRequest [])
  | outcome_one k c :
      m !! k = Some c →
      outcome m m (jsonResponse StatusOK [marshal c])
  | outcome_list l :
      lists m l →
      outcome m m (jsonResponse StatusOK [marshal l])
  | outcome_conflict c old l :
      m !! Id c = Some old → lists m l →
      outcome m m (jsonResponse StatusConflict [marshal l])
  | outcome_created c l :
      Id c ≠ 0 → m !! Id c = None → lists (<[Id c := c]> m) l →
      outcome m (<[Id c := c]> m) (jsonResponse StatusCreated [marshal l])
  | outcome_replaced c old l :
      m !! Id c = Some old → lists (<[Id c := c]> m) l →
      outcome m (<[Id c := c]> m) (jsonResponse StatusOK [marshal l])
  | outcome_deleted id old l :
      m !! id = Some old → lists (delete id m) l →
      outcome m (delete id m) (jsonResponse StatusOK [marshal l]).

(** Decimal digits and the number a string of digits writes. *)
Definition isDigit (c : ascii) : bool :=
  (48 <=? N_of_ascii c) && (N_of_ascii c <=? 57).

Fixpoint allDigits (s : string) : bool :=
  match s with
  | EmptyString => true
  | String c s' => isDigit c && allDigits s'
  end.

Fixpoint decimalFrom (n : N) (s : string) : N :=
  match s with
  | EmptyString => n
  | String c s' => decimalFrom (n * 10 + (N_of_ascii c - 48)) s'
  end.

Definition decimal (s : string) : N := decimalFrom 0 s.

(** [s] is a decimal numeral of an unsigned 64-bit number: not empty,
    digits only, value at most [maxUint64]. *)
Definition numeral64 (s : string) : Prop :=
  s ≠ "" ∧ allDigits s = true ∧ decimal s ≤ maxUint64.

(** A request whose body cannot be read, and a decoder that rejects
    every body, for running the error branches. *)
Definition brokenBody (vars : list (string * string)) : Request :=
  mkRequest (list_to_map vars) ("", Some (EOther "unexpected EOF")).
Definition Unmarshal_fail : string → Customer → Customer * option error :=
  λ _ _, (customerX, Some (EOther "unexpected end of JSON input")).

(** * Properties *)

(** Running the primitives of [Handler]. *)
Ltac run :=
  unfold mbind, mret, Handler_bind, Handler_ret, Header_Set, WriteHeader,
    Encode, getWorld, putCustomers, modifyWriter;
  cbn [fst snd negb customers writer Header Code Body NewRecorder].

(** ** [ParseUint] on sample texts *)

Example ParseUint_3 : ParseUint "3" = (3, None).
Proof. reflexivity. Qed.

Example ParseUint_0042 : ParseUint "0042" = (42, None).
Proof. reflexivity. Qed.

Example ParseUint_abc :
  ParseUint "abc" = (0, Some (syntaxError "ParseUint" "abc")).
Proof. reflexivity. Qed.

Example ParseUint_plus : ParseUint "+3" = (0, Some (syntaxError "ParseUint" "+3")).
Proof. reflexivity. Qed.

Example ParseUint_max : ParseUint "18446744073709551615" = (maxUint64, None).
Proof. vm_compute. reflexivity. Qed.

Example ParseUint_over :
  ParseUint "18446744073709551616"
  = (maxUint64, Some (rangeError "ParseUint" "18446744073709551616")).
Proof. vm_compute. reflexivity. Qed.

(** A failed parse reports a [NumError] of [ParseUint] on the text it
    was given. *)
Lemma ParseUint_loop_error s0 s n v e :
  ParseUint_loop s0 s n = (v, Some e) →
  ∃ reason, e = ENum (mkNumError "ParseUint" s0 reason).
Proof.
  revert n. induction s as [|c s IH]; intros n; simpl; [done|].
  repeat case_match; try (intros [= <- <-]; unfold syntaxError, rangeError; eauto).
  apply IH.
Qed.

Lemma ParseUint_error s v e :
  ParseUint s = (v, Some e) →
  ∃ reason, e = ENum (mkNumError "ParseUint" s reason).
Proof.
  destruct s as [|c s]; unfold ParseUint.
  - intros [= <- <-]. unfold syntaxError. eauto.
  - apply ParseUint_loop_error.
Qed.

(** ** Enumeration *)

Lemma foldl_append_snd {A B} (l : list (A * B)) (acc : list B) :
  foldl (λ result kv, (result ++ [kv.2])%list) acc l = (acc ++ l.*2)%list.
Proof.
  revert acc. induction l as [|kv l IH]; intros acc; simpl.
  - by rewrite app_nil_r.
  - rewrite IH. by rewrite <- app_assoc.
Qed.

Lemma getCustomerSlices_run ρ σ :
  getCustomerSlices ρ σ = ((ρ (customers σ)).*2, σ).
Proof. unfold getCustomerSlices. run. by rewrite foldl_append_snd. Qed.

Lemma lists_range (ρ : MapRange) m : lists m ((ρ m).*2).
Proof. unfold lists. by rewrite (range_perm ρ m). Qed.

Lemma lists_elem_of m l c : lists m l → c ∈ l ↔ ∃ k, m !! k = Some c.
Proof.
  unfold lists. intros ->. rewrite list_elem_of_fmap. split.
  - intros [[k c'] [-> Hin]]. exists k. by apply elem_of_map_to_list.
  - intros [k Hk]. exists (k, c). split; [done|]. by apply elem_of_map_to_list.
Qed.

Ltac run_slices := run; rewrite ?getCustomerSlices_run; run.

(** ** What one call of each handler does *)

Section Endpoints.

Variable json_Unmarshal : string → Customer → Customer * option error.
Variable strconv_Quote : string → string.

Abbreviation add := (addCustomer json_Unmarshal strconv_Quote).
Abbreviation update := (updateCustomer json_Unmarshal strconv_Quote).
Abbreviation del := (deleteCustomer strconv_Quote).
Abbreviation get := (getCustomer strconv_Quote).
Abbreviation jsonHeader :=
  (<["Content-Type" := "application/json"]> (∅ : gmap string string)).

Lemma readCustomer_decodes r c :
  decodes json_Unmarshal r c →
  readCustomerFromRequestBody json_Unmarshal r = (c, None).
Proof.
  intros (body & Hread & Hdec). unfold readCustomerFromRequestBody.
  by rewrite Hread, Hdec.
Qed.

Lemma getCustomers_run ρ r m :
  ServeHTTP (getCustomers ρ) r m
  = (m, mkResponseWriter jsonHeader (Some StatusOK) [marshal (ρ m).*2]).
Proof. unfold ServeHTTP, getCustomers. by run_slices. Qed.

Lemma getCustomer_badId r m givenId n err :
  Vars r !! "id" = Some givenId → ParseUint givenId = (n, Some err) →
  ServeHTTP get r m
  = (m, mkResponseWriter jsonHeader (Some StatusBadRequest)
          [JString ("Failed to parse the given id: " +:+ givenId +:+ ". "
                      +:+ Error strconv_Quote err)]).
Proof. intros Hv Hp. unfold ServeHTTP, getCustomer. rewrite Hv, Hp. by run. Qed.

Lemma getCustomer_missing r m givenId id :
  pathId r givenId id → m !! id = None →
  ServeHTTP get r m
  = (m, mkResponseWriter jsonHeader (Some StatusNotFound)
          [JString ("Customer with id: " +:+ givenId +:+ " not found.")]).
Proof.
  intros [Hv Hp] Hm. unfold ServeHTTP, getCustomer. rewrite Hv, Hp.
  run. rewrite Hm. by run.
Qed.

Lemma getCustomer_found r m givenId id c :
  pathId r givenId id → m !! id = Some c →
  ServeHTTP get r m
  = (m, mkResponseWriter jsonHeader (Some StatusOK) [marshal c]).
Proof.
  intros [Hv Hp] Hm. unfold ServeHTTP, getCustomer. rewrite Hv, Hp.
  run. rewrite Hm. by run.
Qed.

Lemma addCustomer_zero ρ r m c :
  decodes json_Unmarshal r c → Id c = 0 →
  ServeHTTP (add ρ) r m
  = (m, mkResponseWriter jsonHeader (Some StatusBadRequest)
          [JString "Invalid customer id 0. Customer id should be greater than 0."]).
Proof.
  intros Hdec Hz. unfold ServeHTTP, addCustomer.
  rewrite (readCustomer_decodes _ _ Hdec), Hz. by run.
Qed.

Lemma addCustomer_fresh ρ r m c :
  decodes json_Unmarshal r c → Id c ≠ 0 → m !! Id c = None →
  ServeHTTP (add ρ) r m
  = (<[Id c := c]> m,
     mkResponseWriter jsonHeader (Some StatusCreated)
       [marshal (ρ (<[Id c := c]> m)).*2]).
Proof.
  intros Hdec Hnz Hfresh. unfold ServeHTTP, addCustomer.
  rewrite (readCustomer_decodes _ _ Hdec).
  apply N.eqb_neq in Hnz. rewrite Hnz.
  run. rewrite Hfresh. by run_slices.
Qed.

Lemma addCustomer_conflict ρ r m c old :
  decodes json_Unmarshal r c → Id c ≠ 0 → m !! Id c = Some old →
  ServeHTTP (add ρ) r m
  = (m, mkResponseWriter jsonHeader (Some StatusConflict) [marshal (ρ m).*2]).
Proof.
  intros Hdec Hnz Hold. unfold ServeHTTP, addCustomer.
  rewrite (readCustomer_decodes _ _ Hdec).
  apply N.eqb_neq in Hnz. rewrite Hnz.
  run. rewrite Hold. by run_slices.
Qed.

Lemma updateCustomer_mismatch ρ r m givenId id c :
  pathId r givenId id → decodes json_Unmarshal r c → Id c ≠ id →
  ServeHTTP (update ρ) r m
  = (m, mkResponseWriter jsonHeader (Some StatusBadRequest)
          [JString "Customer id in the request body does not match the id in the URL path."]).
Proof.
  intros [Hv Hp] Hdec Hne. unfold ServeHTTP, updateCustomer.
  rewrite Hv, Hp, (readCustomer_decodes _ _ Hdec).
  apply N.eqb_neq in Hne. rewrite Hne. by run.
Qed.

Lemma updateCustomer_missing ρ r m givenId id c :
  pathId r givenId id → decodes json_Unmarshal r c → Id c = id →
  m !! id = None →
  ServeHTTP (update ρ) r m
  = (m, mkResponseWriter jsonHeader (Some StatusNotFound)
          [JString ("Customer with id: " +:+ givenId +:+ " not found.")]).
Proof.
  intros [Hv Hp] Hdec Heq Hm. unfold ServeHTTP, updateCustomer.
  rewrite Hv, Hp, (readCustomer_decodes _ _ Hdec).
  apply N.eqb_eq in Heq. rewrite Heq.
  run. rewrite Hm. by run.
Qed.

Lemma updateCustomer_replace ρ r m givenId id c old :
  pathId r givenId id → decodes json_Unmarshal r c → Id c = id →
  m !! id = Some old →
  ServeHTTP (update ρ) r m
  = (<[id := c]> m,
     mkResponseWriter jsonHeader (Some StatusOK) [marshal (ρ (<[id := c]> m)).*2]).
Proof.
  intros [Hv Hp] Hdec Heq Hm. unfold ServeHTTP, updateCustomer.
  rewrite Hv, Hp, (readCustomer_decodes _ _ Hdec).
  apply N.eqb_eq in Heq. rewrite Heq.
  run. rewrite Hm. by run_slices.
Qed.

Lemma deleteCustomer_missing ρ r m givenId id :
  pathId r givenId id → m !! id = None →
  ServeHTTP (del ρ) r m
  = (m, mkResponseWriter jsonHeader (Some StatusNotFound)
          [JString ("Customer with id: " +:+ givenId +:+ " not found.")]).
Proof.
  intros [Hv Hp] Hm. unfold ServeHTTP, deleteCustomer. rewrite Hv, Hp.
  run. rewrite Hm. by run.
Qed.

Lemma deleteCustomer_found ρ r m givenId id old :
  pathId r givenId id → m !! id = Some old →
  ServeHTTP (del ρ) r m
  = (delete id m,
     mkResponseWriter jsonHeader (Some StatusOK) [marshal (ρ (delete id m)).*2]).
Proof.
  intros [Hv Hp] Hm. unfold ServeHTTP, deleteCustomer. rewrite Hv, Hp.
  run. rewrite Hm. by run_slices.
Qed.

End Endpoints.

(** ** Invariants of the map *)

Section Invariants.

Variable json_Unmarshal : string → Customer → Customer * option error.
Variable strconv_Quote : string → string.

Lemma ServeHTTP_change ρ rt r m :
  change m (ServeHTTP (handlerOf json_Unmarshal strconv_Quote ρ rt) r m).1.
Proof.
  destruct rt; unfold ServeHTTP, handlerOf.
  - unfold getCustomer. run. repeat (case_match; run); constructor.
  - unfold getCustomers. run_slices. constructor.
  - unfold addCustomer.
    destruct (readCustomerFromRequestBody json_Unmarshal r) as [c [e|]];
      run; [constructor|].
    destruct (Id c =? 0) eqn:Hz; run; [constructor|].
    apply N.eqb_neq in Hz.
    destruct (m !! Id c) eqn:Hm; run_slices; [constructor|].
    by apply change_insert.
  - unfold updateCustomer.
    destruct (Vars r !! "id") as [givenId|]; run; [|constructor].
    destruct (ParseUint givenId) as [id [e|]]; run; [constructor|].
    destruct (readCustomerFromRequestBody json_Unmarshal r) as [c [e|]];
      run; [constructor|].
    destruct (Id c =? id) eqn:Heq; run; [|constructor].
    apply N.eqb_eq in Heq. subst id.
    destruct (m !! Id c) eqn:Hm; run_slices; [|constructor].
    by eapply change_replace.
  - unfold deleteCustomer.
    destruct (Vars r !! "id") as [givenId|]; run; [|constructor].
    destruct (ParseUint givenId) as [id [e|]]; run; [constructor|].
    destruct (m !! id) eqn:Hm; run_slices; [|constructor].
    by eapply change_delete.
Qed.

Lemma change_keyed m m' :
  change m m' → keyed m ∧ m !! 0 = None → keyed m' ∧ m' !! 0 = None.
Proof.
  intros Hch [Hk H0]. destruct Hch as [|c Hnz Hfresh|c old Hold|id old Hold].
  - done.
  - split.
    + intros k c'. rewrite lookup_insert. case_decide; naive_solver.
    + by rewrite lookup_insert_ne.
  - split.
    + intros k c'. rewrite lookup_insert. case_decide; naive_solver.
    + rewrite lookup_insert_ne; [done|]. intros Hz. rewrite Hz in Hold. congruence.
  - split.
    + intros k c'. rewrite lookup_delete. case_decide; naive_solver.
    + rewrite lookup_delete. by case_decide.
Qed.

Lemma customers_init_keyed : keyed customers_init ∧ customers_init !! 0 = None.
Proof.
  split; [|done]. intros k c. unfold customers_init.
  rewrite !lookup_insert, lookup_empty.
  repeat case_decide; naive_solver.
Qed.

Lemma reachable_keyed m :
  reachable json_Unmarshal strconv_Quote m → keyed m ∧ m !! 0 = None.
Proof.
  induction 1 as [|ρ rt r m _ IH].
  - apply customers_init_keyed.
  - eapply change_keyed; [apply ServeHTTP_change | exact IH].
Qed.

End Invariants.

(** In a keyed map the listed records have pairwise different ids. *)
Lemma keyed_ids_NoDup m l : keyed m → lists m l → NoDup (Id <$> l).
Proof.
  intros Hk Hl. unfold lists in Hl. rewrite Hl.
  assert ((map_to_list m).*1 = Id <$> (map_to_list m).*2) as <-.
  { rewrite <- list_fmap_compose. apply list_fmap_ext.
    intros i [k c] Hi; simpl. symmetry. apply Hk.
    apply elem_of_map_to_list. by eapply list_elem_of_lookup_2. }
  apply NoDup_fst_map_to_list.
Qed.

(** ** The contract of the endpoints *)

Lemma responded_intro code body :
  responded
    (mkResponseWriter (<["Content-Type" := "application/json"]> ∅) (Some code) [body])
    code body.
Proof. unfold responded. split_and!; [apply lookup_insert_eq | done..]. Qed.

Lemma customers_init_lists : lists customers_init [johnDoe; janeDoe; johnSmith].
Proof.
  unfold lists, customers_init.
  rewrite map_to_list_insert by done.
  rewrite map_to_list_insert by done.
  rewrite map_to_list_insert by done.
  by rewrite map_to_list_empty.
Qed.

Section Contract.

Variable json_Unmarshal : string → Customer → Customer * option error.
Variable strconv_Quote : string → string.

Abbreviation add' := (addCustomer json_Unmarshal strconv_Quote).
Abbreviation update' := (updateCustomer json_Unmarshal strconv_Quote).
Abbreviation del' := (deleteCustomer strconv_Quote).
Abbreviation get' := (getCustomer strconv_Quote).
Abbreviation reachable' := (reachable json_Unmarshal strconv_Quote).

(** C1. POST /customers with a decoded body whose id is not 0 and is
    not a key of the map: the map gains exactly that record under its
    id, the status is 201, and the body is the list of all records of
    the new map, the created one among them. *)
Theorem addCustomer_created ρ r m c :
  decodes json_Unmarshal r c → Id c ≠ 0 → m !! Id c = None →
  let res := ServeHTTP (add' ρ) r m in
  res.1 = <[Id c := c]> m
  ∧ res.1 !! Id c = Some c
  ∧ (∀ k, k ≠ Id c → res.1 !! k = m !! k)
  ∧ ∃ l, responded res.2 StatusCreated (marshal l) ∧ lists res.1 l ∧ c ∈ l.
Proof.
  intros Hdec Hnz Hfresh res. subst res.
  rewrite (addCustomer_fresh _ _ ρ r m c Hdec Hnz Hfresh). cbn [fst snd].
  split_and!.
  - done.
  - apply lookup_insert_eq.
  - intros k Hk. by apply lookup_insert_ne.
  - exists ((ρ (<[Id c := c]> m)).*2). split_and!.
    + apply responded_intro.
    + apply lists_range.
    + eapply lists_elem_of; [apply lists_range|].
      exists (Id c). apply lookup_insert_eq.
Qed.

(** C2. POST /customers with a decoded body whose id is a key of the
    map, in any state the program can reach: status 409, the map is the
    same map, and the body is the list of all its records. *)
Theorem addCustomer_conflict_unchanged ρ r m c old :
  reachable' m → decodes json_Unmarshal r c → m !! Id c = Some old →
  let res := ServeHTTP (add' ρ) r m in
  res.1 = m
  ∧ res.1 !! Id c = Some old
  ∧ ∃ l, responded res.2 StatusConflict (marshal l) ∧ lists m l.
Proof.
  intros Hreach Hdec Hold res. subst res.
  assert (Id c ≠ 0) as Hnz.
  { intros Hz. apply reachable_keyed in Hreach as [_ H0]. congruence. }
  rewrite (addCustomer_conflict _ _ ρ r m c old Hdec Hnz Hold). cbn [fst snd].
  split_and!; [done..|].
  exists ((ρ m).*2). split; [apply responded_intro | apply lists_range].
Qed.

(** C3. PUT /customers/{id} where the path id parses, the body decodes,
    the body's id is the path id and the id is a key of the map: the
    record under that id becomes the body's record, every other entry
    stays, the status is 200 and the body is the list of all records
    of the new map. *)
Theorem updateCustomer_replaces ρ r m givenId id c old :
  pathId r givenId id → decodes json_Unmarshal r c → Id c = id →
  m !! id = Some old →
  let res := ServeHTTP (update' ρ) r m in
  res.1 = <[id := c]> m
  ∧ res.1 !! id = Some c
  ∧ (∀ k, k ≠ id → res.1 !! k = m !! k)
  ∧ ∃ l, responded res.2 StatusOK (marshal l) ∧ lists res.1 l.
Proof.
  intros Hpath Hdec Heq Hold res. subst res.
  rewrite (updateCustomer_replace _ _ ρ r m givenId id c old Hpath Hdec Heq Hold).
  cbn [fst snd]. split_and!.
  - done.
  - apply lookup_insert_eq.
  - intros k Hk. by apply lookup_insert_ne.
  - exists ((ρ (<[id := c]> m)).*2).
    split; [apply responded_intro | apply lists_range].
Qed.

(** C4. PUT /customers/{id} where the path id parses, the body decodes
    and the body's id is not the path id: status 400 with the mismatch
    message and the same map, whatever the map holds; nothing is
    assumed about the path id being a key. *)
Theorem updateCustomer_mismatch_400 ρ r m givenId id c :
  pathId r givenId id → decodes json_Unmarshal r c → Id c ≠ id →
  let res := ServeHTTP (update' ρ) r m in
  res.1 = m
  ∧ responded res.2 StatusBadRequest
      (JString "Customer id in the request body does not match the id in the URL path.").
Proof.
  intros Hpath Hdec Hne res. subst res.
  rewrite (updateCustomer_mismatch _ _ ρ r m givenId id c Hpath Hdec Hne).
  split; [done | apply responded_intro].
Qed.

(** C5. GET /customers/{id}: a path text that does not parse gives 400
    and a JSON string made of the text and the reason of the parse
    error; a text that parses to an id that is no key gives 404 and a
    JSON string naming the text; otherwise 200 and the encoded record.
    The map is never changed. *)
Theorem getCustomer_cases r m givenId :
  Vars r !! "id" = Some givenId →
  let res := ServeHTTP get' r m in
  res.1 = m
  ∧ match ParseUint givenId with
    | (_, Some err) =>
        (∃ reason,
           err = ENum (mkNumError "ParseUint" givenId reason)
           ∧ Error strconv_Quote err
             = "strconv.ParseUint: parsing " +:+ strconv_Quote givenId +:+ ": "
                 +:+ strconvErr_Error reason)
        ∧ responded res.2 StatusBadRequest
            (JString ("Failed to parse the given id: " +:+ givenId +:+ ". "
                        +:+ Error strconv_Quote err))
    | (id, None) =>
        match m !! id with
        | None =>
            responded res.2 StatusNotFound
              (JString ("Customer with id: " +:+ givenId +:+ " not found."))
        | Some customer => responded res.2 StatusOK (marshal customer)
        end
    end.
Proof.
  intros Hv res. subst res.
  destruct (ParseUint givenId) as [id [err|]] eqn:Hp.
  - rewrite (getCustomer_badId _ r m givenId id err Hv Hp). cbn [fst snd].
    split; [done|]. split; [|apply responded_intro].
    destruct (ParseUint_error _ _ _ Hp) as [reason ->]. by exists reason.
  - destruct (m !! id) as [customer|] eqn:Hm.
    + rewrite (getCustomer_found _ r m givenId id customer (conj Hv Hp) Hm).
      split; [done | apply responded_intro].
    + rewrite (getCustomer_missing _ r m givenId id (conj Hv Hp) Hm).
      split; [done | apply responded_intro].
Qed.

(** C6. In every map the program can reach, no record is stored under
    id 0 and the ids of the listed records are pairwise different and
    none is 0; and POST /customers with a decoded body of id 0 answers
    400 with a JSON string and leaves the map as it is. *)
Theorem ids_unique_nonzero m :
  reachable' m →
  (m !! 0 = None
   ∧ ∀ l, lists m l → NoDup (Id <$> l) ∧ 0 ∉ (Id <$> l))
  ∧ ∀ ρ r c, decodes json_Unmarshal r c → Id c = 0 →
      let res := ServeHTTP (add' ρ) r m in
      res.1 = m
      ∧ responded res.2 StatusBadRequest
          (JString "Invalid customer id 0. Customer id should be greater than 0.").
Proof.
  intros Hreach. apply reachable_keyed in Hreach as [Hk H0].
  split; [split; [done|]|].
  - intros l Hl. split; [by eapply keyed_ids_NoDup|].
    rewrite list_elem_of_fmap. intros (c & Hz & Hin).
    apply (lists_elem_of m l c Hl) in Hin as [k Hc].
    pose proof (Hk k c Hc). congruence.
  - intros ρ r c Hdec Hz res. subst res.
    rewrite (addCustomer_zero _ _ ρ r m c Hdec Hz).
    split; [done | apply responded_intro].
Qed.

(** C7. DELETE /customers/{id} for a key of the map removes the entry
    and answers 200 with the list of the records that remain; the same
    request served again answers 404 and leaves the map as the first
    call left it. *)
Theorem deleteCustomer_twice ρ1 ρ2 r m givenId id old :
  pathId r givenId id → m !! id = Some old →
  let first := ServeHTTP (del' ρ1) r m in
  let second := ServeHTTP (del' ρ2) r first.1 in
  first.1 = delete id m
  ∧ first.1 !! id = None
  ∧ (∀ k, k ≠ id → first.1 !! k = m !! k)
  ∧ (∃ l, responded first.2 StatusOK (marshal l) ∧ lists first.1 l)
  ∧ responded second.2 StatusNotFound
      (JString ("Customer with id: " +:+ givenId +:+ " not found."))
  ∧ second.1 = first.1.
Proof.
  intros Hpath Hold first second. subst first second.
  rewrite (deleteCustomer_found _ ρ1 r m givenId id old Hpath Hold). cbn [fst snd].
  rewrite (deleteCustomer_missing _ ρ2 r (delete id m) givenId id Hpath
             (lookup_delete_eq m id)).
  cbn [fst snd]. split_and!.
  - done.
  - apply lookup_delete_eq.
  - intros k Hk. by apply lookup_delete_ne.
  - exists ((ρ1 (delete id m)).*2).
    split; [apply responded_intro | apply lists_range].
  - apply responded_intro.
  - done.
Qed.

(** C10. In every map the program can reach, the record stored under
    a key has that key as its [Id]; so every record of a list response
    is stored under its own id, and the record of a get response has
    the id that was asked for. *)
Theorem stored_under_own_id m :
  reachable' m →
  keyed m
  ∧ (∀ ρ r, ∃ l,
       responded (ServeHTTP (getCustomers ρ) r m).2 StatusOK (marshal l)
       ∧ ∀ c, c ∈ l → m !! Id c = Some c)
  ∧ (∀ r givenId id c,
       pathId r givenId id → m !! id = Some c →
       responded (ServeHTTP get' r m).2 StatusOK (marshal c) ∧ Id c = id).
Proof.
  intros Hreach. apply reachable_keyed in Hreach as [Hk _]. split_and!.
  - done.
  - intros ρ r. exists ((ρ m).*2). rewrite getCustomers_run. cbn [snd].
    split; [apply responded_intro|].
    intros c Hin. apply (lists_elem_of m _ c (lists_range ρ m)) in Hin as [k Hc].
    by rewrite (Hk k c Hc).
  - intros r givenId id c Hpath Hc.
    rewrite (getCustomer_found _ r m givenId id c Hpath Hc). cbn [snd].
    split; [apply responded_intro | by apply Hk].
Qed.

End Contract.

(** ** Listing and encoding *)

(** C8. Served on the seed, GET /customers answers 200 with a JSON
    array of exactly the three seeded records, ids 1, 2 and 3, in some
    order, none of them with a [contacted] key. *)
Theorem getCustomers_seed ρ r :
  let res := ServeHTTP (getCustomers ρ) r customers_init in
  res.1 = customers_init
  ∧ ∃ js,
      responded res.2 StatusOK (JArray js)
      ∧ js ≡ₚ [ JObject [("id", JNumber 1); ("name", JString "John Doe");
                         ("role", JString "Admin");
                         ("email", JString "john.doe@gmail.com");
                         ("phone", JString "1234567890")];
                JObject [("id", JNumber 2); ("name", JString "Jane Doe");
                         ("role", JString "User");
                         ("email", JString "jane.doe@gmail.com");
                         ("phone", JString "0987654321")];
                JObject [("id", JNumber 3); ("name", JString "John Smith");
                         ("role", JString "User");
                         ("email", JString "john.smith@gmail.com");
                         ("phone", JString "1234567890")] ]
      ∧ ∀ j, j ∈ js → member "contacted" j = None.
Proof.
  intros res. subst res. rewrite getCustomers_run. cbn [fst snd].
  split; [done|]. exists (marshal <$> (ρ customers_init).*2).
  assert (marshal <$> (ρ customers_init).*2
          ≡ₚ marshal <$> [johnDoe; janeDoe; johnSmith]) as Hperm.
  { apply fmap_Permutation.
    pose proof (lists_range ρ customers_init) as H1.
    pose proof customers_init_lists as H2.
    unfold lists in H1, H2. by rewrite H1, H2. }
  split_and!.
  - apply responded_intro.
  - exact Hperm.
  - intros j Hj. rewrite Hperm in Hj.
    repeat (apply elem_of_cons in Hj as [-> | Hj]; [reflexivity|]).
    by apply elem_of_nil in Hj.
Qed.

(** C9. In the encoding of a [Customer], each of [id], [name], [role],
    [email], [phone] and [contacted] is left out exactly when the field
    holds 0, the empty string or false, and carries the field's value
    otherwise.  ([ServeHTTP_body_encoded] below: every value of every
    response is made by this encoder.) *)
Theorem Customer_omitempty (c : Customer) : sparse c (marshal c).
Proof.
  destruct c as [id name role email phone contacted].
  unfold sparse, keyHolds, marshal, Marshal_Customer, encodeStruct,
    Customer_fields, encodeField, isEmptyValue.
  cbn [Id Name Role Email Phone IsContacted omitEmpty fieldVal jsonName andb
       omap list_omap].
  destruct (N.eqb_spec id 0) as [->|Hid];
    destruct name as [|n0 name]; destruct role as [|r0 role];
    destruct email as [|e0 email]; destruct phone as [|p0 phone];
    destruct contacted; cbn;
    split_and!; try split; intros; try done; try congruence.
Qed.

(** Every JSON value of every response comes out of [marshal]: a
    message, a record or a slice of records. *)
Lemma ServeHTTP_body_encoded json_Unmarshal strconv_Quote ρ rt r m j :
  j ∈ Body (ServeHTTP (handlerOf json_Unmarshal strconv_Quote ρ rt) r m).2 →
  encoded j.
Proof.
  assert (∀ j' : JSON, encoded j' → j ∈ [j'] → encoded j) as Hone.
  { intros j' Hj' Hin. apply list_elem_of_singleton in Hin. by subst. }
  assert (j ∈ @nil JSON → encoded j) as Hnil.
  { intros Hin. by apply elem_of_nil in Hin. }
  destruct rt; unfold ServeHTTP, handlerOf.
  - unfold getCustomer.
    destruct (Vars r !! "id") as [givenId|]; run; [|done].
    destruct (ParseUint givenId) as [id [e|]]; run;
      [apply Hone, encoded_string|].
    destruct (m !! id) as [c|]; run;
      [apply Hone, encoded_Customer | apply Hone, encoded_string].
  - unfold getCustomers. run_slices. apply Hone, encoded_slice.
  - unfold addCustomer.
    destruct (readCustomerFromRequestBody json_Unmarshal r) as [c [e|]];
      run; [apply Hone, encoded_string|].
    destruct (Id c =? 0); run; [apply Hone, encoded_string|].
    destruct (m !! Id c); run_slices; apply Hone, encoded_slice.
  - unfold updateCustomer.
    destruct (Vars r !! "id") as [givenId|]; run; [|done].
    destruct (ParseUint givenId) as [id [e|]]; run;
      [apply Hone, encoded_string|].
    destruct (readCustomerFromRequestBody json_Unmarshal r) as [c [e|]];
      run; [apply Hone, encoded_string|].
    destruct (Id c =? id); run; [|apply Hone, encoded_string].
    destruct (m !! id); run_slices;
      [apply Hone, encoded_slice | apply Hone, encoded_string].
  - unfold deleteCustomer.
    destruct (Vars r !! "id") as [givenId|]; run; [|done].
    destruct (ParseUint givenId) as [id [e|]]; run;
      [apply Hone, encoded_string|].
    destruct (m !! id); run_slices;
      [apply Hone, encoded_slice | apply Hone, encoded_string].
Qed.

(** ** The handlers on concrete requests *)

Example GET_customers_1 :
  (ServeHTTP (getCustomer Quote_plain) (requestWith [("id", "1")]) customers_init).2
  = mkResponseWriter {["Content-Type" := "application/json"]} (Some 200)
      [JObject [("id", JNumber 1); ("name", JString "John Doe");
                ("role", JString "Admin"); ("email", JString "john.doe@gmail.com");
                ("phone", JString "1234567890")]].
Proof. vm_compute. reflexivity. Qed.

Example GET_customers_999 :
  Code (ServeHTTP (getCustomer Quote_plain) (requestWith [("id", "999")])
          customers_init).2 = Some 404.
Proof. vm_compute. reflexivity. Qed.

Example GET_customers_abc :
  Code (ServeHTTP (getCustomer Quote_plain) (requestWith [("id", "abc")])
          customers_init).2 = Some 400.
Proof. vm_compute. reflexivity. Qed.

Example GET_customers_no_var :
  (ServeHTTP (getCustomer Quote_plain) (requestWith []) customers_init).2
  = mkResponseWriter {["Content-Type" := "application/json"]} (Some 400) [].
Proof. vm_compute. reflexivity. Qed.

Example POST_then_GET :
  let U := Unmarshal_const customerX in
  let posted := ServeHTTP (addCustomer U Quote_plain range_default)
                  (requestWith []) customers_init in
  Code posted.2 = Some 201
  ∧ (ServeHTTP (getCustomer Quote_plain) (requestWith [("id", "4")]) posted.1).2
    = mkResponseWriter {["Content-Type" := "application/json"]} (Some 200)
        [marshal customerX].
Proof. split; vm_compute; reflexivity. Qed.

Example PUT_unknown_id :
  Code (ServeHTTP (updateCustomer (Unmarshal_const customerX) Quote_plain range_default)
          (requestWith [("id", "4")]) customers_init).2 = Some 404.
Proof. vm_compute. reflexivity. Qed.

Example DELETE_then_GET :
  let deleted := ServeHTTP (deleteCustomer Quote_plain range_default)
                   (requestWith [("id", "2")]) customers_init in
  Code deleted.2 = Some 200
  ∧ Code (ServeHTTP (getCustomer Quote_plain) (requestWith [("id", "2")]) deleted.1).2
    = Some 404.
Proof. split; vm_compute; reflexivity. Qed.

(** ** The theorems at concrete requests *)

Lemma decodes_const c : decodes (Unmarshal_const c) (requestWith []) c.
Proof. exists "{}". split; reflexivity. Defined.

Lemma decodes_const_id c s : decodes (Unmarshal_const c) (requestWith [("id", s)]) c.
Proof. exists "{}". split; reflexivity. Defined.

Lemma addCustomer_created_witness :
  customers_init !! 4 = None
  ∧ (ServeHTTP (addCustomer (Unmarshal_const customerX) Quote_plain range_default)
       (requestWith []) customers_init).1 !! 4 = Some customerX.
Proof.
  assert (customers_init !! Id customerX = None) as Hfresh by reflexivity.
  assert (Id customerX ≠ 0) as Hnz by discriminate.
  split; [exact Hfresh|].
  pose proof (addCustomer_created (Unmarshal_const customerX) Quote_plain
                range_default (requestWith []) customers_init customerX
                (decodes_const customerX) Hnz Hfresh) as H.
  cbv zeta in H. exact (proj1 (proj2 H)).
Defined.

Lemma addCustomer_conflict_unchanged_witness :
  customers_init !! 1 = Some johnDoe
  ∧ (ServeHTTP (addCustomer (Unmarshal_const (mkCustomer 1 "Other" "" "" "" true))
                  Quote_plain range_default)
       (requestWith []) customers_init).1 = customers_init.
Proof.
  assert (customers_init !! Id (mkCustomer 1 "Other" "" "" "" true) = Some johnDoe)
    as Hold by reflexivity.
  split; [exact Hold|].
  pose proof (addCustomer_conflict_unchanged
                (Unmarshal_const (mkCustomer 1 "Other" "" "" "" true)) Quote_plain
                range_default (requestWith []) customers_init _ johnDoe
                (reachable_init _ _) (decodes_const _) Hold) as H.
  cbv zeta in H. exact (proj1 H).
Defined.

Lemma updateCustomer_replaces_witness :
  pathId (requestWith [("id", "3")]) "3" 3
  ∧ (ServeHTTP (updateCustomer (Unmarshal_const newName3) Quote_plain range_default)
       (requestWith [("id", "3")]) customers_init).1 !! 3 = Some newName3.
Proof.
  assert (pathId (requestWith [("id", "3")]) "3" 3) as Hpath
    by (split; vm_compute; reflexivity).
  split; [exact Hpath|].
  pose proof (updateCustomer_replaces (Unmarshal_const newName3) Quote_plain
                range_default (requestWith [("id", "3")]) customers_init "3" 3
                newName3 johnSmith Hpath (decodes_const_id _ _) eq_refl eq_refl) as H.
  cbv zeta in H. exact (proj1 (proj2 H)).
Defined.

Lemma updateCustomer_mismatch_400_witness :
  pathId (requestWith [("id", "9")]) "9" 9
  ∧ customers_init !! 9 = None
  ∧ Code (ServeHTTP (updateCustomer (Unmarshal_const customerX) Quote_plain range_default)
            (requestWith [("id", "9")]) customers_init).2 = Some StatusBadRequest.
Proof.
  assert (pathId (requestWith [("id", "9")]) "9" 9) as Hpath
    by (split; vm_compute; reflexivity).
  assert (Id customerX ≠ 9) as Hne by discriminate.
  split; [exact Hpath|]. split; [reflexivity|].
  pose proof (updateCustomer_mismatch_400 (Unmarshal_const customerX) Quote_plain
                range_default (requestWith [("id", "9")]) customers_init "9" 9
                customerX Hpath (decodes_const_id _ _) Hne) as H.
  cbv zeta in H. exact (proj1 (proj2 (proj2 H))).
Defined.

Lemma getCustomer_cases_witness :
  Vars (requestWith [("id", "abc")]) !! "id" = Some "abc"
  ∧ (ServeHTTP (getCustomer Quote_plain) (requestWith [("id", "abc")])
       customers_init).1 = customers_init.
Proof.
  assert (Vars (requestWith [("id", "abc")]) !! "id" = Some "abc") as Hv
    by (vm_compute; reflexivity).
  split; [exact Hv|].
  pose proof (getCustomer_cases Quote_plain (requestWith [("id", "abc")])
                customers_init "abc" Hv) as H.
  cbv zeta in H. exact (proj1 H).
Defined.

Lemma ids_unique_nonzero_witness :
  customers_init !! 0 = None
  ∧ Code (ServeHTTP (addCustomer (Unmarshal_const anonymous) Quote_plain range_default)
            (requestWith []) customers_init).2 = Some StatusBadRequest.
Proof.
  pose proof (ids_unique_nonzero (Unmarshal_const anonymous) Quote_plain
                customers_init (reachable_init _ _)) as [[H0 _] Hpost].
  split; [exact H0|].
  pose proof (Hpost range_default (requestWith []) anonymous
                (decodes_const anonymous) eq_refl) as H.
  cbv zeta in H. exact (proj1 (proj2 (proj2 H))).
Defined.

Lemma deleteCustomer_twice_witness :
  pathId (requestWith [("id", "2")]) "2" 2
  ∧ customers_init !! 2 = Some janeDoe
  ∧ (ServeHTTP (deleteCustomer Quote_plain range_default) (requestWith [("id", "2")])
       customers_init).1 !! 2 = None.
Proof.
  assert (pathId (requestWith [("id", "2")]) "2" 2) as Hpath
    by (split; vm_compute; reflexivity).
  assert (customers_init !! 2 = Some janeDoe) as Hold by reflexivity.
  split; [exact Hpath|]. split; [exact Hold|].
  pose proof (deleteCustomer_twice Quote_plain range_default range_default
                (requestWith [("id", "2")]) customers_init "2" 2 janeDoe
                Hpath Hold) as H.
  cbv zeta in H. exact (proj1 (proj2 H)).
Defined.

Lemma stored_under_own_id_witness : keyed customers_init.
Proof.
  exact (proj1 (stored_under_own_id (Unmarshal_const customerX) Quote_plain
                  customers_init (reachable_init _ _))).
Defined.


(** * Further properties of the handlers *)

(** ** Every way a request can end *)

Lemma ServeHTTP_outcome json_Unmarshal strconv_Quote ρ rt r m :
  let res := ServeHTTP (handlerOf json_Unmarshal strconv_Quote ρ rt) r m in
  outcome m res.1 res.2.
Proof.
  cbv zeta. destruct rt; unfold ServeHTTP, handlerOf.
  - unfold getCustomer.
    destruct (Vars r !! "id") as [givenId|]; run; [|apply outcome_bare].
    destruct (ParseUint givenId) as [id [e|]]; run;
      [apply outcome_message; by left|].
    destruct (m !! id) as [c|] eqn:Hm; run;
      [by eapply outcome_one | apply outcome_message; by right].
  - unfold getCustomers. run_slices. apply outcome_list, lists_range.
  - unfold addCustomer.
    destruct (readCustomerFromRequestBody json_Unmarshal r) as [c [e|]];
      run; [apply outcome_message; by left|].
    destruct (Id c =? 0) eqn:Hz; run; [apply outcome_message; by left|].
    apply N.eqb_neq in Hz.
    destruct (m !! Id c) eqn:Hm; run_slices.
    + eapply outcome_conflict; [done | apply lists_range].
    + apply outcome_created; [done.. | apply lists_range].
  - unfold updateCustomer.
    destruct (Vars r !! "id") as [givenId|]; run; [|apply outcome_bare].
    destruct (ParseUint givenId) as [id [e|]]; run;
      [apply outcome_message; by left|].
    destruct (readCustomerFromRequestBody json_Unmarshal r) as [c [e|]];
      run; [apply outcome_message; by left|].
    destruct (Id c =? id) eqn:Heq; run; [|apply outcome_message; by left].
    apply N.eqb_eq in Heq. subst id.
    destruct (m !! Id c) eqn:Hm; run_slices.
    + eapply outcome_replaced; [done | apply lists_range].
    + apply outcome_message; by right.
  - unfold deleteCustomer.
    destruct (Vars r !! "id") as [givenId|]; run; [|apply outcome_bare].
    destruct (ParseUint givenId) as [id [e|]]; run;
      [apply outcome_message; by left|].
    destruct (m !! id) eqn:Hm; run_slices.
    + eapply outcome_deleted; [done | apply lists_range].
    + apply outcome_message; by right.
Qed.

(** ** Reading the body, and the error branches *)

Section Failures.

Variable json_Unmarshal : string → Customer → Customer * option error.
Variable strconv_Quote : string → string.

Abbreviation read := (readCustomerFromRequestBody json_Unmarshal).
Abbreviation post := (addCustomer json_Unmarshal strconv_Quote).
Abbreviation put := (updateCustomer json_Unmarshal strconv_Quote).
Abbreviation remove := (deleteCustomer strconv_Quote).
Abbreviation fetch := (getCustomer strconv_Quote).

(** X1. [readCustomerFromRequestBody] gives a record without error
    exactly when the body was read without error and [json.Unmarshal]
    accepted it; with an error the record is [Customer{}], whatever
    [Unmarshal] had left in it; and a read error is returned as it is,
    the decoder not being asked. *)
Theorem readCustomerFromRequestBody_result r :
  (∀ c, read r = (c, None) ↔ decodes json_Unmarshal r c)
  ∧ (∀ e, (read r).2 = Some e → (read r).1 = Customer_zero)
  ∧ (∀ body e, ReadAll r = (body, Some e) → read r = (Customer_zero, Some e)).
Proof.
  unfold readCustomerFromRequestBody, decodes.
  destruct (ReadAll r) as [body [e|]] eqn:Hread.
  - split_and!.
    + intros c. split; [done|]. by intros (b & [= _ ?] & _).
    + done.
    + by intros b e' [= _ <-].
  - destruct (json_Unmarshal body Customer_zero) as [c' [e|]] eqn:Hdec.
    + split_and!; [|done..].
      intros c. split; [done|]. intros (b & [= <-] & Hb). congruence.
    + split_and!; [|done..].
      intros c. split.
      * intros [= <-]. by exists body.
      * intros (b & [= <-] & Hb). congruence.
Qed.

(** X2. POST /customers with a body that cannot be read or decoded:
    400, the message carries the text of the error, and the map is the
    same map; the id checks are not reached. *)
Theorem addCustomer_bad_body ρ r m c e :
  read r = (c, Some e) →
  let res := ServeHTTP (post ρ) r m in
  res.1 = m
  ∧ res.2 = jsonResponse StatusBadRequest
      [JString ("Failed to read customer data from the request body. "
                  +:+ Error strconv_Quote e)].
Proof.
  intros Hread res. subst res. unfold ServeHTTP, addCustomer. rewrite Hread.
  by run.
Qed.

(** X3. PUT /customers/{id} with a path text that does not parse: 400
    with the parse message and the same map, before the body is read:
    the answer is the same for every body and every decoder. *)
Theorem updateCustomer_bad_path ρ r m givenId n e :
  Vars r !! "id" = Some givenId → ParseUint givenId = (n, Some e) →
  let res := ServeHTTP (put ρ) r m in
  res.1 = m
  ∧ res.2 = jsonResponse StatusBadRequest
      [JString ("Failed to parse the given id: " +:+ givenId +:+ ". "
                  +:+ Error strconv_Quote e)].
Proof.
  intros Hv Hp res. subst res. unfold ServeHTTP, updateCustomer.
  rewrite Hv, Hp. by run.
Qed.

(** X4. PUT /customers/{id} with a path id that parses and a body that
    cannot be read or decoded: 400 with the text of the error and the
    same map, whether or not the id is a key (the body is checked before
    the lookup). *)
Theorem updateCustomer_bad_body ρ r m givenId id c e :
  pathId r givenId id → read r = (c, Some e) →
  let res := ServeHTTP (put ρ) r m in
  res.1 = m
  ∧ res.2 = jsonResponse StatusBadRequest
      [JString ("Failed to read customer data from the request body. "
                  +:+ Error strconv_Quote e)].
Proof.
  intros [Hv Hp] Hread res. subst res. unfold ServeHTTP, updateCustomer.
  rewrite Hv, Hp, Hread. by run.
Qed.

(** X5. PUT /customers/{id} never creates: with matching ids and an id
    that is no key, the answer is 404 naming the path text, the map is
    the same map and the id is still no key. *)
Theorem updateCustomer_absent ρ r m givenId id c :
  pathId r givenId id → decodes json_Unmarshal r c → Id c = id →
  m !! id = None →
  let res := ServeHTTP (put ρ) r m in
  res.1 = m
  ∧ res.1 !! id = None
  ∧ res.2 = jsonResponse StatusNotFound
      [JString ("Customer with id: " +:+ givenId +:+ " not found.")].
Proof.
  intros Hpath Hdec Heq Hm res. subst res.
  by rewrite (updateCustomer_missing _ _ ρ r m givenId id c Hpath Hdec Heq Hm).
Qed.

(** X6. DELETE /customers/{id} that removes nothing: a path text that
    does not parse gives 400 with the parse message, a text that parses
    to an id that is no key gives 404 naming the text; the map is the same
    map in both cases. *)
Theorem deleteCustomer_rejects ρ r m givenId :
  Vars r !! "id" = Some givenId →
  let res := ServeHTTP (remove ρ) r m in
  match ParseUint givenId with
  | (_, Some e) =>
      res = (m, jsonResponse StatusBadRequest
                  [JString ("Failed to parse the given id: " +:+ givenId +:+ ". "
                              +:+ Error strconv_Quote e)])
  | (id, None) =>
      m !! id = None →
      res = (m, jsonResponse StatusNotFound
                  [JString ("Customer with id: " +:+ givenId +:+ " not found.")])
  end.
Proof.
  intros Hv res. subst res.
  destruct (ParseUint givenId) as [id [e|]] eqn:Hp.
  - unfold ServeHTTP, deleteCustomer. rewrite Hv, Hp. by run.
  - intros Hm. apply (deleteCustomer_missing _ ρ r m givenId id (conj Hv Hp) Hm).
Qed.

(** X7. A request that reaches a handler of /customers/{id} without the
    path variable [id]: GET, PUT and DELETE all answer 400 with an empty
    body and leave the map as it is; PUT does not read the body. *)
Theorem missing_path_variable ρ r m :
  Vars r !! "id" = None →
  ServeHTTP fetch r m = (m, jsonResponse StatusBadRequest [])
  ∧ ServeHTTP (put ρ) r m = (m, jsonResponse StatusBadRequest [])
  ∧ ServeHTTP (remove ρ) r m = (m, jsonResponse StatusBadRequest []).
Proof.
  intros Hv. unfold ServeHTTP, getCustomer, updateCustomer, deleteCustomer.
  rewrite Hv. by run.
Qed.

End Failures.

(** ** What every response and every change looks like *)

Lemma lists_length m l : lists m l → List.length l = size m.
Proof.
  unfold lists. intros ->. rewrite length_fmap. apply length_map_to_list.
Qed.

(** Case analysis on the way a served request ended. *)
Ltac by_outcome U Q ρ rt r m pat :=
  let Hout := fresh "Hout" in
  pose proof (ServeHTTP_outcome U Q ρ rt r m) as Hout; cbv zeta in Hout;
  destruct (ServeHTTP (handlerOf U Q ρ rt) r m) as [? ?];
  cbn [fst snd] in *; destruct Hout as pat.

Section Shape.

Variable json_Unmarshal : string → Customer → Customer * option error.
Variable strconv_Quote : string → string.

(** X8. Whatever the route, the request and the map: the response has
    the content type [application/json], its status is one of 200, 201,
    400, 404 and 409, and its body holds at most one JSON value. *)
Theorem response_shape ρ rt r m :
  let w := (ServeHTTP (handlerOf json_Unmarshal strconv_Quote ρ rt) r m).2 in
  Header w !! "Content-Type" = Some "application/json"
  ∧ (∃ code, Code w = Some code
             ∧ code ∈ [StatusOK; StatusCreated; StatusBadRequest;
                       StatusNotFound; StatusConflict])
  ∧ (List.length (Body w) ≤ 1)%nat.
Proof.
  cbv zeta.
  by_outcome json_Unmarshal strconv_Quote ρ rt r m
    ipattern:([code msg [-> | ->]| | | | | | |]);
    (split_and!; [apply lookup_insert_eq | eexists; split; [reflexivity|] | simpl; lia]);
    set_solver.
Qed.

(** X9. Only a 200 or a 201 goes with a changed map: when the status is
    neither, the map after the request is the map before it. *)
Theorem failure_leaves_map ρ rt r m :
  let res := ServeHTTP (handlerOf json_Unmarshal strconv_Quote ρ rt) r m in
  Code res.2 ≠ Some StatusOK → Code res.2 ≠ Some StatusCreated →
  res.1 = m.
Proof.
  cbv zeta.
  by_outcome json_Unmarshal strconv_Quote ρ rt r m
    ipattern:([code msg [-> | ->]| | | | | | |]); done.
Qed.

(** X10. A 201 means one more record and nothing lost: the map has
    grown by exactly one entry and every entry it had is still there
    with the same record. *)
Theorem created_grows_by_one ρ rt r m :
  let res := ServeHTTP (handlerOf json_Unmarshal strconv_Quote ρ rt) r m in
  Code res.2 = Some StatusCreated →
  size res.1 = S (size m) ∧ m ⊆ res.1.
Proof.
  cbv zeta.
  by_outcome json_Unmarshal strconv_Quote ρ rt r m
    ipattern:([code msg [-> | ->]| | | | |c l Hnz Hfresh Hl| |]);
    try discriminate.
  intros _. split; [by apply map_size_insert_None | by apply insert_subseteq].
Qed.

(** X11. One request touches at most one key: there is an id such that
    the entries under all other ids are the same before and after. *)
Theorem one_key_touched ρ rt r m :
  ∃ k, ∀ k', k' ≠ k → (ServeHTTP (handlerOf json_Unmarshal strconv_Quote ρ rt) r m).1 !! k' = m !! k'.
Proof.
  by_outcome json_Unmarshal strconv_Quote ρ rt r m
    ipattern:([| | | | |c l _ _ _|c old l _ _|id old l _ _]).
  1-5: by exists 0.
  - exists (Id c). intros k' Hk'. by apply lookup_insert_ne.
  - exists (Id c). intros k' Hk'. by apply lookup_insert_ne.
  - exists id. intros k' Hk'. by apply lookup_delete_ne.
Qed.

(** X12. When the body is a JSON array, it is the encoding of a listing
    of the map as the request left it, after the insertion, replacement
    or removal: one element per entry. *)
Theorem array_body_lists_new_map ρ rt r m js :
  let res := ServeHTTP (handlerOf json_Unmarshal strconv_Quote ρ rt) r m in
  Body res.2 = [JArray js] →
  (∃ l, lists res.1 l ∧ js = marshal <$> l) ∧ List.length js = size res.1.
Proof.
  cbv zeta.
  assert (∀ m' (l : list Customer), lists m' l → [marshal l] = [JArray js] →
            (∃ l', lists m' l' ∧ js = marshal <$> l') ∧ List.length js = size m') as Hl.
  { intros m' l Hlists [= <-]. split; [by exists l|].
    rewrite length_fmap. by apply lists_length. }
  by_outcome json_Unmarshal strconv_Quote ρ rt r m
    ipattern:([| | | | | | |]);
    cbn [Body jsonResponse]; try discriminate; eauto.
Qed.

End Shape.

(** ** What each mutating handler can and cannot do to the map *)

Section Effects.

Variable json_Unmarshal : string → Customer → Customer * option error.
Variable strconv_Quote : string → string.

Lemma addCustomer_effect ρ r m :
  let m' := (ServeHTTP (addCustomer json_Unmarshal strconv_Quote ρ) r m).1 in
  m' = m ∨ ∃ c, Id c ≠ 0 ∧ m !! Id c = None ∧ m' = <[Id c := c]> m.
Proof.
  cbv zeta. unfold ServeHTTP, addCustomer.
  destruct (readCustomerFromRequestBody json_Unmarshal r) as [c [e|]];
    run; [by left|].
  destruct (Id c =? 0) eqn:Hz; run; [by left|].
  apply N.eqb_neq in Hz.
  destruct (m !! Id c) eqn:Hm; run_slices; [by left|].
  right. by exists c.
Qed.

Lemma updateCustomer_effect ρ r m :
  let m' := (ServeHTTP (updateCustomer json_Unmarshal strconv_Quote ρ) r m).1 in
  m' = m ∨ ∃ c old, m !! Id c = Some old ∧ m' = <[Id c := c]> m.
Proof.
  cbv zeta. unfold ServeHTTP, updateCustomer.
  destruct (Vars r !! "id") as [givenId|]; run; [|by left].
  destruct (ParseUint givenId) as [id [e|]]; run; [by left|].
  destruct (readCustomerFromRequestBody json_Unmarshal r) as [c [e|]];
    run; [by left|].
  destruct (Id c =? id) eqn:Heq; run; [|by left].
  apply N.eqb_eq in Heq. subst id.
  destruct (m !! Id c) as [old|] eqn:Hm; run_slices; [|by left].
  right. by exists c, old.
Qed.

Lemma deleteCustomer_effect ρ r m :
  let m' := (ServeHTTP (deleteCustomer strconv_Quote ρ) r m).1 in
  m' = m ∨ ∃ id old, m !! id = Some old ∧ m' = delete id m.
Proof.
  cbv zeta. unfold ServeHTTP, deleteCustomer.
  destruct (Vars r !! "id") as [givenId|]; run; [|by left].
  destruct (ParseUint givenId) as [id [e|]]; run; [by left|].
  destruct (m !! id) as [old|] eqn:Hm; run_slices; [|by left].
  right. by exists id, old.
Qed.

(** X13. POST /customers never removes or overwrites: whatever the
    request, every entry of the map is still there afterwards with the
    same record, and the map has grown by at most one entry. *)
Theorem addCustomer_keeps_records ρ r m :
  let m' := (ServeHTTP (addCustomer json_Unmarshal strconv_Quote ρ) r m).1 in
  m ⊆ m' ∧ (size m' ≤ S (size m))%nat.
Proof.
  cbv zeta.
  destruct (addCustomer_effect ρ r m) as [-> | (c & _ & Hfresh & ->)].
  - split; [done | lia].
  - split; [by apply insert_subseteq|]. by rewrite map_size_insert_None.
Qed.

(** X14. PUT /customers/{id} never adds or removes a key: whatever the
    request, the set of ids and the number of records are the same
    before and after. *)
Theorem updateCustomer_keeps_keys ρ r m :
  let m' := (ServeHTTP (updateCustomer json_Unmarshal strconv_Quote ρ) r m).1 in
  dom m' = dom m ∧ size m' = size m.
Proof.
  cbv zeta.
  destruct (updateCustomer_effect ρ r m) as [-> | (c & old & Hold & ->)];
    [done|].
  split; [by apply dom_insert_lookup_L | by apply map_size_insert_Some].
Qed.

(** X15. DELETE /customers/{id} never adds or alters a record: whatever
    the request, every entry left is an entry the map had, and at most
    one entry is gone. *)
Theorem deleteCustomer_only_removes ρ r m :
  let m' := (ServeHTTP (deleteCustomer strconv_Quote ρ) r m).1 in
  m' ⊆ m ∧ (size m ≤ S (size m'))%nat.
Proof.
  cbv zeta.
  destruct (deleteCustomer_effect ρ r m) as [-> | (id & old & Hold & ->)].
  - split; [done | lia].
  - split; [apply delete_subseteq|].
    rewrite map_size_delete, Hold. simpl. lia.
Qed.

(** X16. The two GET handlers only read: whatever the request, also a
    malformed one, the map after the call is the map before it. *)
Theorem reads_leave_map ρ r m :
  (ServeHTTP (getCustomers ρ) r m).1 = m
  ∧ (ServeHTTP (getCustomer strconv_Quote) r m).1 = m.
Proof.
  split; [by rewrite getCustomers_run|].
  unfold ServeHTTP, getCustomer.
  destruct (Vars r !! "id") as [givenId|]; run; [|done].
  destruct (ParseUint givenId) as [id [e|]]; run; [done|].
  by destruct (m !! id); run.
Qed.

End Effects.

(** ** How the requests compose *)

Section Composition.

Variable json_Unmarshal : string → Customer → Customer * option error.
Variable strconv_Quote : string → string.

Abbreviation POST := (addCustomer json_Unmarshal strconv_Quote).
Abbreviation PUT := (updateCustomer json_Unmarshal strconv_Quote).
Abbreviation DELETE := (deleteCustomer strconv_Quote).
Abbreviation GET := (getCustomer strconv_Quote).

(** X17. What was created can be fetched: after a POST that stores the
    record [c], a GET whose path text parses to the id of [c] answers 200
    with the encoding of [c]. *)
Theorem add_then_get ρ r r' m c givenId :
  decodes json_Unmarshal r c → Id c ≠ 0 → m !! Id c = None →
  pathId r' givenId (Id c) →
  let created := ServeHTTP (POST ρ) r m in
  Code created.2 = Some StatusCreated
  ∧ (ServeHTTP GET r' created.1).2 = jsonResponse StatusOK [marshal c].
Proof.
  intros Hdec Hnz Hfresh Hpath created. subst created.
  rewrite (addCustomer_fresh _ _ ρ r m c Hdec Hnz Hfresh). cbn [fst snd Code].
  split; [done|].
  by rewrite (getCustomer_found _ r' _ givenId (Id c) c Hpath (lookup_insert_eq _ _ _)).
Qed.

(** X18. An update is what the next GET shows: after a PUT that
    replaces the record under [id] by [c], a GET of that id answers 200
    with the encoding of [c], not of the record that was there. *)
Theorem update_then_get ρ r r' m givenId givenId' id c old :
  pathId r givenId id → decodes json_Unmarshal r c → Id c = id →
  m !! id = Some old → pathId r' givenId' id →
  let updated := ServeHTTP (PUT ρ) r m in
  (ServeHTTP GET r' updated.1).2 = jsonResponse StatusOK [marshal c].
Proof.
  intros Hpath Hdec Heq Hold Hpath' updated. subst updated.
  rewrite (updateCustomer_replace _ _ ρ r m givenId id c old Hpath Hdec Heq Hold).
  cbn [fst].
  by rewrite (getCustomer_found _ r' _ givenId' id c Hpath' (lookup_insert_eq _ _ _)).
Qed.


(** X20. Deleting what was just created gives back the map: after a
    POST that stores [c] under a new id and a DELETE of that id, the map
    is the one before the POST. *)
Theorem add_then_delete_restores ρ ρ' r r' m c givenId :
  decodes json_Unmarshal r c → Id c ≠ 0 → m !! Id c = None →
  pathId r' givenId (Id c) →
  let created := ServeHTTP (POST ρ) r m in
  let deleted := ServeHTTP (DELETE ρ') r' created.1 in
  Code deleted.2 = Some StatusOK ∧ deleted.1 = m.
Proof.
  intros Hdec Hnz Hfresh Hpath created deleted. subst created deleted.
  rewrite (addCustomer_fresh _ _ ρ r m c Hdec Hnz Hfresh). cbn [fst].
  rewrite (deleteCustomer_found _ ρ' r' _ givenId (Id c) c Hpath
             (lookup_insert_eq _ _ _)).
  cbn [fst snd Code]. split; [done|]. by apply delete_insert_id.
Qed.

(** X21. The same POST twice: when the first stores the record, the
    second answers 409 and leaves the map as the first left it, with the
    record of the first still under the id. *)
Theorem add_twice ρ ρ' r m c :
  decodes json_Unmarshal r c → Id c ≠ 0 → m !! Id c = None →
  let first := ServeHTTP (POST ρ) r m in
  let second := ServeHTTP (POST ρ') r first.1 in
  Code first.2 = Some StatusCreated
  ∧ Code second.2 = Some StatusConflict
  ∧ second.1 = first.1
  ∧ second.1 !! Id c = Some c.
Proof.
  intros Hdec Hnz Hfresh first second. subst first second.
  rewrite (addCustomer_fresh _ _ ρ r m c Hdec Hnz Hfresh). cbn [fst snd Code].
  rewrite (addCustomer_conflict _ _ ρ' r _ c c Hdec Hnz (lookup_insert_eq _ _ _)).
  cbn [fst snd Code]. split_and!; [done..|]. apply lookup_insert_eq.
Qed.

(** X22. The same PUT twice: when the first replaces the record, the
    second answers 200 again and the map is the one the first left;
    unlike DELETE, the status of the repeated request is the same. *)
Theorem update_twice ρ ρ' r m givenId id c old :
  pathId r givenId id → decodes json_Unmarshal r c → Id c = id →
  m !! id = Some old →
  let first := ServeHTTP (PUT ρ) r m in
  let second := ServeHTTP (PUT ρ') r first.1 in
  Code first.2 = Some StatusOK
  ∧ Code second.2 = Some StatusOK
  ∧ second.1 = first.1.
Proof.
  intros Hpath Hdec Heq Hold first second. subst first second.
  rewrite (updateCustomer_replace _ _ ρ r m givenId id c old Hpath Hdec Heq Hold).
  cbn [fst snd Code].
  rewrite (updateCustomer_replace _ _ ρ' r _ givenId id c c Hpath Hdec Heq
             (lookup_insert_eq _ _ _)).
  cbn [fst snd Code]. split_and!; [done..|]. apply insert_insert_eq.
Qed.

(** X23. An id is free again after its record is deleted: after a
    DELETE that removed the record [old] stored under its own id, not 0,
    a POST of [old] answers 201 and the map is the one before the
    DELETE. *)
Theorem delete_then_add_restores ρ ρ' r r' m givenId old :
  pathId r givenId (Id old) → m !! Id old = Some old → Id old ≠ 0 →
  decodes json_Unmarshal r' old →
  let deleted := ServeHTTP (DELETE ρ) r m in
  let created := ServeHTTP (POST ρ') r' deleted.1 in
  Code created.2 = Some StatusCreated ∧ created.1 = m.
Proof.
  intros Hpath Hold Hnz Hdec deleted created. subst deleted created.
  rewrite (deleteCustomer_found _ ρ r m givenId (Id old) old Hpath Hold). cbn [fst].
  rewrite (addCustomer_fresh _ _ ρ' r' _ old Hdec Hnz (lookup_delete_eq m (Id old))).
  cbn [fst snd Code]. split; [done|]. by apply insert_delete_id.
Qed.

End Composition.

(** ** Which path texts are ids *)

Lemma maxUint64_val : maxUint64 = 18446744073709551615.
Proof. reflexivity. Qed.

Lemma cutoff_val : cutoff = 1844674407370955162.
Proof. reflexivity. Qed.

Lemma pow64_val : 2 ^ 64 = 18446744073709551616.
Proof. reflexivity. Qed.

Lemma decimalFrom_ge s k : k ≤ decimalFrom k s.
Proof.
  revert k. induction s as [|c s IH]; intros k; simpl; [lia|].
  etrans; [|apply IH]. lia.
Qed.

Lemma digitVal_cases c :
  if isDigit c
  then digitVal (N_of_ascii c) = Some (N_of_ascii c - 48) ∧ N_of_ascii c - 48 < 10
  else digitVal (N_of_ascii c) = None
       ∨ ∃ d, digitVal (N_of_ascii c) = Some d ∧ 10 ≤ d.
Proof.
  unfold isDigit, digitVal.
  destruct (48 <=? N_of_ascii c) eqn:H1; destruct (N_of_ascii c <=? 57) eqn:H2;
    cbn [andb].
  - apply N.leb_le in H1, H2. split; [done | lia].
  - destruct (_ && _); [right; eexists; split; [done | lia] | by left].
  - destruct (_ && _); [right; eexists; split; [done | lia] | by left].
  - destruct (_ && _); [right; eexists; split; [done | lia] | by left].
Qed.

Lemma ParseUint_loop_decimal s0 s n v :
  n ≤ maxUint64 →
  ParseUint_loop s0 s n = (v, None)
  ↔ allDigits s = true ∧ decimalFrom n s = v ∧ v ≤ maxUint64.
Proof.
  revert n. induction s as [|c s IH]; intros n Hn.
  - simpl. split; [intros [= <-]; done | intros (_ & <- & _); done].
  - cbn [ParseUint_loop allDigits decimalFrom].
    pose proof (digitVal_cases c) as Hc.
    destruct (isDigit c); cbn [andb].
    + destruct Hc as [-> Hd].
      destruct (10 <=? N_of_ascii c - 48) eqn:H10; [apply N.leb_le in H10; lia|].
      pose proof (decimalFrom_ge s (n * 10 + (N_of_ascii c - 48))) as Hge.
      rewrite maxUint64_val in *.
      destruct (cutoff <=? n) eqn:Hcut.
      * apply N.leb_le in Hcut. rewrite cutoff_val in Hcut.
        split; [done | intros (_ & <- & ?); lia].
      * apply N.leb_gt in Hcut. rewrite cutoff_val in Hcut.
        rewrite pow64_val.
        destruct (N.le_gt_cases (n * 10 + (N_of_ascii c - 48)) 18446744073709551615)
          as [Hfit | Hover].
        -- rewrite (N.mod_small (n * 10 + (N_of_ascii c - 48))) by lia.
           destruct (_ <? n * 10) eqn:H1; [apply N.ltb_lt in H1; lia|].
           destruct (18446744073709551615 <? _) eqn:H2; [apply N.ltb_lt in H2; lia|].
           cbn [orb]. rewrite <- maxUint64_val.
           assert (n * 10 + (N_of_ascii c - 48) ≤ maxUint64) as Hn1
             by (rewrite maxUint64_val; lia).
           exact (IH _ Hn1).
        -- assert ((n * 10 + (N_of_ascii c - 48)) mod 18446744073709551616
                   = n * 10 + (N_of_ascii c - 48) - 18446744073709551616) as ->.
           { symmetry. apply (N.mod_unique _ _ 1); lia. }
           destruct (_ <? n * 10) eqn:H1; [|apply N.ltb_ge in H1; lia].
           cbn [orb]. split; [done | intros (_ & <- & ?); lia].
    + split; [|by intros (? & _)].
      destruct Hc as [-> | (d & -> & Hd)]; [done|].
      apply N.leb_le in Hd. by rewrite Hd.
Qed.

(** [ParseUint] succeeds exactly on the non-empty strings of decimal
    digits whose value fits in 64 bits, and gives that value. *)
Lemma ParseUint_decimal s n :
  ParseUint s = (n, None)
  ↔ s ≠ "" ∧ allDigits s = true ∧ decimal s = n ∧ n ≤ maxUint64.
Proof.
  destruct s as [|c s].
  - simpl. split; [done | by intros [? _]].
  - unfold ParseUint, decimal.
    rewrite (ParseUint_loop_decimal _ (String c s) 0 n)
      by (rewrite maxUint64_val; lia).
    split; [by intros ? | by intros (_ & ?)].
Qed.

Lemma ParseUint_numeral64 s : numeral64 s ↔ ParseUint s = (decimal s, None).
Proof.
  rewrite ParseUint_decimal. unfold numeral64.
  split; [by intros (? & ? & ?) | by intros (? & ? & _ & ?)].
Qed.

Lemma ParseUint_not_numeral64 s : ¬ numeral64 s ↔ ∃ n e, ParseUint s = (n, Some e).
Proof.
  split.
  - intros Hnot. destruct (ParseUint s) as [n [e|]] eqn:Hp; [by exists n, e|].
    destruct Hnot. apply ParseUint_decimal in Hp as (? & ? & Hval & ?).
    unfold numeral64. by rewrite Hval.
  - intros (n & e & Hp) Hnum. apply ParseUint_numeral64 in Hnum. congruence.
Qed.

Section PathIds.

Variable json_Unmarshal : string → Customer → Customer * option error.
Variable strconv_Quote : string → string.

Lemma deleteCustomer_badId ρ r m givenId n err :
  Vars r !! "id" = Some givenId → ParseUint givenId = (n, Some err) →
  Code (ServeHTTP (deleteCustomer strconv_Quote ρ) r m).2 = Some StatusBadRequest.
Proof.
  intros Hv Hp. unfold ServeHTTP, deleteCustomer. rewrite Hv, Hp. by run.
Qed.

(** X24. GET and DELETE on /customers/{id} answer 400 exactly when the
    path text is not a decimal numeral of an unsigned 64-bit number: empty,
    with a sign, a space, a letter or any other byte that is no digit, or
    with a value above 2^64 - 1. *)
Theorem bad_id_iff_not_numeral ρ r m givenId :
  Vars r !! "id" = Some givenId →
  (Code (ServeHTTP (getCustomer strconv_Quote) r m).2 = Some StatusBadRequest
   ↔ ¬ numeral64 givenId)
  ∧ (Code (ServeHTTP (deleteCustomer strconv_Quote ρ) r m).2 = Some StatusBadRequest
     ↔ ¬ numeral64 givenId).
Proof.
  intros Hv. rewrite ParseUint_not_numeral64.
  destruct (ParseUint givenId) as [id [e|]] eqn:Hp.
  - rewrite (getCustomer_badId _ r m givenId id e Hv Hp).
    rewrite (deleteCustomer_badId ρ r m givenId id e Hv Hp). cbn [snd Code].
    split; (split; [by exists id, e | done]).
  - assert (¬ ∃ n e, (id, @None error) = (n, Some e)) as Hno by (by intros (? & ? & ?)).
    destruct (m !! id) as [c|] eqn:Hm.
    + rewrite (getCustomer_found _ r m givenId id c (conj Hv Hp) Hm).
      rewrite (deleteCustomer_found _ ρ r m givenId id c (conj Hv Hp) Hm).
      cbn [snd Code]. split; (split; [discriminate | done]).
    + rewrite (getCustomer_missing _ r m givenId id (conj Hv Hp) Hm).
      rewrite (deleteCustomer_missing _ ρ r m givenId id (conj Hv Hp) Hm).
      cbn [snd Code]. split; (split; [discriminate | done]).
Qed.

(** X25. A record is addressed by the value of the path text, not by
    its spelling: for a decimal numeral, with or without leading zeros,
    GET answers with the record stored under the number it writes. *)
Theorem get_by_decimal_value r m givenId c :
  Vars r !! "id" = Some givenId → numeral64 givenId →
  m !! decimal givenId = Some c →
  ServeHTTP (getCustomer strconv_Quote) r m = (m, jsonResponse StatusOK [marshal c]).
Proof.
  intros Hv Hnum Hc. apply ParseUint_numeral64 in Hnum.
  apply (getCustomer_found _ r m givenId (decimal givenId) c (conj Hv Hnum) Hc).
Qed.


End PathIds.

(** ** The further properties at concrete requests *)

Lemma pathId_requestWith s n :
  ParseUint s = (n, None) → pathId (requestWith [("id", s)]) s n.
Proof. intros Hp. split; [apply lookup_insert_eq | exact Hp]. Qed.

Lemma pathId_brokenBody s n :
  ParseUint s = (n, None) → pathId (brokenBody [("id", s)]) s n.
Proof. intros Hp. split; [apply lookup_insert_eq | exact Hp]. Qed.

Lemma Vars_requestWith s : Vars (requestWith [("id", s)]) !! "id" = Some s.
Proof. apply lookup_insert_eq. Qed.

Lemma addCustomer_bad_body_witness :
  ServeHTTP (addCustomer Unmarshal_fail Quote_plain range_default)
    (requestWith []) customers_init
  = (customers_init,
     jsonResponse StatusBadRequest
       [JString "Failed to read customer data from the request body. unexpected end of JSON input"]).
Proof.
  pose proof (addCustomer_bad_body Unmarshal_fail Quote_plain range_default
                (requestWith []) customers_init Customer_zero
                (EOther "unexpected end of JSON input") eq_refl) as H.
  cbv zeta in H. destruct H as [H1 H2].
  rewrite (surjective_pairing (ServeHTTP _ _ _)), H1, H2. reflexivity.
Defined.

Lemma updateCustomer_bad_path_witness :
  (ServeHTTP (updateCustomer (Unmarshal_const newName3) Quote_plain range_default)
     (requestWith [("id", "-3")]) customers_init).1 = customers_init.
Proof.
  pose proof (updateCustomer_bad_path (Unmarshal_const newName3) Quote_plain
                range_default (requestWith [("id", "-3")]) customers_init "-3" 0
                (syntaxError "ParseUint" "-3") (Vars_requestWith "-3") eq_refl) as H.
  cbv zeta in H. exact (proj1 H).
Defined.

Lemma updateCustomer_bad_body_witness :
  (ServeHTTP (updateCustomer (Unmarshal_const newName3) Quote_plain range_default)
     (brokenBody [("id", "9")]) customers_init).2
  = jsonResponse StatusBadRequest
      [JString "Failed to read customer data from the request body. unexpected EOF"].
Proof.
  pose proof (updateCustomer_bad_body (Unmarshal_const newName3) Quote_plain
                range_default (brokenBody [("id", "9")]) customers_init "9" 9
                Customer_zero (EOther "unexpected EOF")
                (pathId_brokenBody "9" 9 eq_refl) eq_refl) as H.
  cbv zeta in H. exact (proj2 H).
Defined.

Lemma updateCustomer_absent_witness :
  (ServeHTTP (updateCustomer (Unmarshal_const customerX) Quote_plain range_default)
     (requestWith [("id", "4")]) customers_init).1 !! 4 = None.
Proof.
  pose proof (updateCustomer_absent (Unmarshal_const customerX) Quote_plain
                range_default (requestWith [("id", "4")]) customers_init "4" 4
                customerX (pathId_requestWith "4" 4 eq_refl)
                (decodes_const_id customerX "4") eq_refl eq_refl) as H.
  cbv zeta in H. exact (proj1 (proj2 H)).
Defined.

Lemma deleteCustomer_rejects_witness :
  ServeHTTP (deleteCustomer Quote_plain range_default) (requestWith [("id", "999")])
    customers_init
  = (customers_init,
     jsonResponse StatusNotFound [JString "Customer with id: 999 not found."]).
Proof.
  pose proof (deleteCustomer_rejects Quote_plain range_default
                (requestWith [("id", "999")]) customers_init "999"
                (Vars_requestWith "999")) as H.
  cbv zeta in H. exact (H eq_refl).
Defined.

Lemma missing_path_variable_witness :
  ServeHTTP (deleteCustomer Quote_plain range_default) (requestWith []) customers_init
  = (customers_init, jsonResponse StatusBadRequest []).
Proof.
  exact (proj2 (proj2 (missing_path_variable (Unmarshal_const customerX) Quote_plain
                         range_default (requestWith []) customers_init eq_refl))).
Defined.

Lemma failure_leaves_map_witness :
  (ServeHTTP (handlerOf (Unmarshal_const johnDoe) Quote_plain range_default
                POST_customers) (requestWith []) customers_init).1
  = customers_init.
Proof.
  pose proof (failure_leaves_map (Unmarshal_const johnDoe) Quote_plain range_default
                POST_customers (requestWith []) customers_init) as H.
  cbv zeta in H. apply H; vm_compute; discriminate.
Defined.

Lemma created_grows_by_one_witness :
  size (ServeHTTP (handlerOf (Unmarshal_const customerX) Quote_plain range_default
                     POST_customers) (requestWith []) customers_init).1
  = S (size customers_init).
Proof.
  pose proof (created_grows_by_one (Unmarshal_const customerX) Quote_plain
                range_default POST_customers (requestWith []) customers_init) as H.
  cbv zeta in H. apply H. vm_compute. reflexivity.
Defined.

Lemma array_body_lists_new_map_witness :
  List.length (marshal <$> (range_default (delete 2 customers_init)).*2)
  = size (ServeHTTP (handlerOf (Unmarshal_const customerX) Quote_plain range_default
                       DELETE_customer) (requestWith [("id", "2")]) customers_init).1.
Proof.
  pose proof (array_body_lists_new_map (Unmarshal_const customerX) Quote_plain
                range_default DELETE_customer (requestWith [("id", "2")])
                customers_init
                (marshal <$> (range_default (delete 2 customers_init)).*2)) as H.
  cbv zeta in H. apply H. vm_compute. reflexivity.
Defined.

Lemma add_then_get_witness :
  (ServeHTTP (getCustomer Quote_plain) (requestWith [("id", "4")])
     (ServeHTTP (addCustomer (Unmarshal_const customerX) Quote_plain range_default)
        (requestWith []) customers_init).1).2
  = jsonResponse StatusOK [marshal customerX].
Proof.
  assert (Id customerX ≠ 0) as Hnz by discriminate.
  pose proof (add_then_get (Unmarshal_const customerX) Quote_plain range_default
                (requestWith []) (requestWith [("id", "4")]) customers_init
                customerX "4" (decodes_const customerX) Hnz eq_refl
                (pathId_requestWith "4" 4 eq_refl)) as H.
  cbv zeta in H. exact (proj2 H).
Defined.

Lemma update_then_get_witness :
  (ServeHTTP (getCustomer Quote_plain) (requestWith [("id", "03")])
     (ServeHTTP (updateCustomer (Unmarshal_const newName3) Quote_plain range_default)
        (requestWith [("id", "3")]) customers_init).1).2
  = jsonResponse StatusOK [marshal newName3].
Proof.
  pose proof (update_then_get (Unmarshal_const newName3) Quote_plain range_default
                (requestWith [("id", "3")]) (requestWith [("id", "03")])
                customers_init "3" "03" 3 newName3 johnSmith
                (pathId_requestWith "3" 3 eq_refl) (decodes_const_id newName3 "3")
                eq_refl eq_refl (pathId_requestWith "03" 3 eq_refl)) as H.
  cbv zeta in H. exact H.
Defined.


Lemma add_then_delete_restores_witness :
  (ServeHTTP (deleteCustomer Quote_plain range_default) (requestWith [("id", "4")])
     (ServeHTTP (addCustomer (Unmarshal_const customerX) Quote_plain range_default)
        (requestWith []) customers_init).1).1
  = customers_init.
Proof.
  assert (Id customerX ≠ 0) as Hnz by discriminate.
  pose proof (add_then_delete_restores (Unmarshal_const customerX) Quote_plain
                range_default range_default (requestWith [])
                (requestWith [("id", "4")]) customers_init customerX "4"
                (decodes_const customerX) Hnz eq_refl
                (pathId_requestWith "4" 4 eq_refl)) as H.
  cbv zeta in H. exact (proj2 H).
Defined.

Lemma add_twice_witness :
  Code (ServeHTTP (addCustomer (Unmarshal_const customerX) Quote_plain range_default)
          (requestWith [])
          (ServeHTTP (addCustomer (Unmarshal_const customerX) Quote_plain range_default)
             (requestWith []) customers_init).1).2
  = Some StatusConflict.
Proof.
  assert (Id customerX ≠ 0) as Hnz by discriminate.
  pose proof (add_twice (Unmarshal_const customerX) Quote_plain range_default
                range_default (requestWith []) customers_init customerX
                (decodes_const customerX) Hnz eq_refl) as H.
  cbv zeta in H. exact (proj1 (proj2 H)).
Defined.

Lemma update_twice_witness :
  Code (ServeHTTP (updateCustomer (Unmarshal_const newName3) Quote_plain range_default)
          (requestWith [("id", "3")])
          (ServeHTTP (updateCustomer (Unmarshal_const newName3) Quote_plain
                        range_default)
             (requestWith [("id", "3")]) customers_init).1).2
  = Some StatusOK.
Proof.
  pose proof (update_twice (Unmarshal_const newName3) Quote_plain range_default
                range_default (requestWith [("id", "3")]) customers_init "3" 3
                newName3 johnSmith (pathId_requestWith "3" 3 eq_refl)
                (decodes_const_id newName3 "3") eq_refl eq_refl) as H.
  cbv zeta in H. exact (proj1 (proj2 H)).
Defined.

Lemma delete_then_add_restores_witness :
  (ServeHTTP (addCustomer (Unmarshal_const janeDoe) Quote_plain range_default)
     (requestWith [])
     (ServeHTTP (deleteCustomer Quote_plain range_default)
        (requestWith [("id", "2")]) customers_init).1).1
  = customers_init.
Proof.
  assert (Id janeDoe ≠ 0) as Hnz by discriminate.
  pose proof (delete_then_add_restores (Unmarshal_const janeDoe) Quote_plain
                range_default range_default (requestWith [("id", "2")])
                (requestWith []) customers_init "2" janeDoe
                (pathId_requestWith "2" 2 eq_refl) eq_refl Hnz
                (decodes_const janeDoe)) as H.
  cbv zeta in H. exact (proj2 H).
Defined.

Lemma bad_id_iff_not_numeral_witness :
  ¬ numeral64 "+3"
  ∧ Code (ServeHTTP (getCustomer Quote_plain) (requestWith [("id", "+3")])
            customers_init).2 = Some StatusBadRequest.
Proof.
  assert (¬ numeral64 "+3") as Hnot by (intros (_ & Hd & _); discriminate Hd).
  split; [exact Hnot|].
  exact (proj2 (proj1 (bad_id_iff_not_numeral Quote_plain range_default
                         (requestWith [("id", "+3")]) customers_init "+3"
                         (Vars_requestWith "+3"))) Hnot).
Defined.

Lemma get_by_decimal_value_witness :
  ServeHTTP (getCustomer Quote_plain) (requestWith [("id", "0003")]) customers_init
  = (customers_init, jsonResponse StatusOK [marshal johnSmith]).
Proof.
  assert (numeral64 "0003") as Hnum.
  { split; [discriminate|]. split; [reflexivity|]. vm_compute. discriminate. }
  exact (get_by_decimal_value Quote_plain (requestWith [("id", "0003")])
           customers_init "0003" johnSmith (Vars_requestWith "0003") Hnum eq_refl).
Defined.

